(** * The screenshot route of the website monitor

    A shallow embedding of [src/app/api/screenshot/route.ts]: the
    certificate inspector [getSSLCertificateInfo], the liveness prober
    [checkWebsiteStatus], the page capturer [takeScreenshot] and the
    batch handler [POST], followed by the properties the specification
    states about them.

    Everything the handler learns from outside (the clock, the network,
    the browser) is read from an explicit world; everything it does to
    the outside is recorded in a trace of effects. *)

From Stdlib Require Import ZArith List String Ascii Bool Lia DecimalString.
From Stdlib Require Import DecimalPos DecimalZ.
Import ListNotations.

Local Open Scope string_scope.
Local Open Scope Z_scope.
Local Open Scope list_scope.

(** ** Data model *)

(** [status: 'up' | 'down' | 'error'] *)
Inductive Status : Type := up | down | error.

Definition Status_eqb (a b : Status) : bool :=
  match a, b with
  | up, up | down, down | error, error => true
  | _, _ => false
  end.

(** Modelled from the spec: the [Website] type, imported from
    [@/lib/supabase], a file that is not among the sources.  The spec
    gives the rows the caller sends as [{ id: integer, url: string }],
    the two members the handler reads. *)
Module Website.
Record t : Type := mk {
  id : Z;
  url : string
}.
End Website.

(** [type ScreenshotResult]; an optional member is an [option], [None]
    standing for [undefined] (dropped by the JSON encoding). *)
Record ScreenshotResult : Type := mkResult {
  id : Z;
  url : string;
  screenshot_path : option string;
  status : Status;
  ssl_valid : bool;
  ssl_expires : option string;
  ssl_days_remaining : option Z;
  ssl_issued_date : option string;
  response_time : option Z;
  error_message : option string
}.

(** The object [getSSLCertificateInfo] resolves with. *)
Module SslInfo.
Record t : Type := mk {
  ssl_valid : bool;
  ssl_expires : option string;
  ssl_days_remaining : option Z;
  ssl_issued_date : option string
}.
(** [{ ssl_valid: false }] *)
Definition invalid : t := mk false None None None.
End SslInfo.

(** The object [checkWebsiteStatus] resolves with. *)
Module StatusCheck.
Record t : Type := mk {
  status : Status;
  ssl_valid : bool;
  response_time : option Z;
  error_message : option string
}.
End StatusCheck.

(** ** Effects and outcomes *)

(** The awaited browser calls of [takeScreenshot], in source order. *)
Inductive BrowserOp : Type :=
| launch | newPage | setViewportSize | goto | waitForTimeout | screenshot | close.

Definition BrowserOp_eqb (a b : BrowserOp) : bool :=
  match a, b with
  | launch, launch | newPage, newPage | setViewportSize, setViewportSize
  | goto, goto | waitForTimeout, waitForTimeout | screenshot, screenshot
  | close, close => true
  | _, _ => false
  end.

(** What the handler does to the outside world.  A browser call is
    recorded with whether it came back ([true]) or rejected ([false]). *)
Inductive Effect : Type :=
| Fetch (target : string)
| TlsConnect (target : string)
| Browser (op : BrowserOp) (ok : bool)
| ConsoleLog
| ConsoleError.

(** How an awaited call ends: with a value, with an exception, or never
    (a promise nobody resolves). *)
Inductive Outcome (A : Type) : Type :=
| Returns (a : A)
| Throws
| NeverSettles.
Arguments Returns {A} a.
Arguments Throws {A}.
Arguments NeverSettles {A}.

(** A computation: its outcome and the effects it performed, in order. *)
Definition IO (A : Type) : Type := (Outcome A * list Effect)%type.

Definition ret {A} (a : A) : IO A := (Returns a, []).
Definition throw {A} : IO A := (Throws, []).
Definition perform (e : Effect) : IO unit := (Returns tt, [e]).

Definition bind {A B} (m : IO A) (k : A -> IO B) : IO B :=
  match m with
  | (Returns a, t) => let '(o, t') := k a in (o, t ++ t')
  | (Throws, t) => (Throws, t)
  | (NeverSettles, t) => (NeverSettles, t)
  end.

Notation "x <- m ;; k" := (bind m (fun x => k))
  (at level 61, m at next level, right associativity).
Notation "m ;;; k" := (bind m (fun _ => k))
  (at level 61, right associativity).

(** [try { body } catch { handler }] *)
Definition try_catch {A} (body handler : IO A) : IO A :=
  match body with
  | (Throws, t) => let '(o, t') := handler in (o, t ++ t')
  | done => done
  end.

(** [try { body } finally { finalizer }]: the finalizer runs however the
    body ended; if it throws, its exception replaces the body's result. *)
Definition try_finally {A} (body : IO A) (finalizer : IO unit) : IO A :=
  match body with
  | (NeverSettles, t) => (NeverSettles, t)
  | (o, t) =>
      match finalizer with
      | (Returns _, t') => (o, t ++ t')
      | (Throws, t') => (Throws, t ++ t')
      | (NeverSettles, t') => (NeverSettles, t ++ t')
      end
  end.

(** ** JavaScript helpers *)

(** [s.startsWith('https://')] *)
Definition startsWith_https (s : string) : bool := String.prefix "https://" s.

(** Truthiness of a string: every string but the empty one. *)
Definition truthy (s : string) : bool :=
  match s with EmptyString => false | String _ _ => true end.

(** [x || undefined] for [x : string | null]. *)
Definition or_undefined (x : option string) : option string :=
  match x with
  | Some s => if truthy s then Some s else None
  | None => None
  end.

(** Truthiness of [string | undefined]. *)
Definition truthy_opt (x : option string) : bool :=
  match x with Some s => truthy s | None => false end.

(** Number to string, for integers: [`${n}`]. *)
Definition Number_toString (n : Z) : string :=
  NilZero.string_of_int (Z.to_int n).

(** [1000 * 60 * 60 * 24] *)
Definition ms_per_day : Z := 1000 * 60 * 60 * 24.

(** The decimal digits of [n], least significant last, in exactly
    [width] characters. *)
Fixpoint pad_decimal (width : nat) (n : Z) : string :=
  match width with
  | O => ""
  | S w =>
      (pad_decimal w (n / 10) ++
       String (ascii_of_nat (48 + Z.to_nat (n mod 10))) "")%string
  end.

(** Year, month and day of the day that is [days] days after
    1970-01-01, in the proleptic Gregorian calendar. *)
Definition civil_from_days (days : Z) : Z * Z * Z :=
  let z := days + 719468 in
  let era := z / 146097 in
  let doe := z - era * 146097 in
  let yoe := (doe - doe / 1460 + doe / 36524 - doe / 146096) / 365 in
  let doy := doe - (365 * yoe + yoe / 4 - yoe / 100) in
  let mp := (5 * doy + 2) / 153 in
  let d := doy - (153 * mp + 2) / 5 + 1 in
  let m := if mp <? 10 then mp + 3 else mp - 9 in
  let y := yoe + era * 400 + (if m <=? 2 then 1 else 0) in
  (y, m, d).

(** [new Date(t).toISOString().split('T')[0]] for a valid time value
    [t]: the UTC calendar date, with the expanded six-digit year the
    ISO format uses outside 0..9999. *)
Definition toISODate (t : Z) : string :=
  let '(y, m, d) := civil_from_days (t / ms_per_day) in
  let year :=
    if (0 <=? y) && (y <=? 9999) then pad_decimal 4 y
    else String.append (if y <? 0 then "-" else "+") (pad_decimal 6 (Z.abs y)) in
  (year ++ "-" ++ pad_decimal 2 m ++ "-" ++ pad_decimal 2 d)%string.

(** ** Certificate inspector *)

(** A date member of the peer certificate as the code uses it:
    falsy ([undefined] or the empty string), a string [new Date] cannot
    parse (an Invalid Date, whose time value is NaN), or a string parsed
    to the time value [t] in milliseconds. *)
Inductive CertDate : Type :=
| DateMissing
| DateInvalid
| DateAt (t : Z).

Record PeerCertificate : Type := mkCert {
  valid_from : CertDate;
  valid_to : CertDate
}.

(** Which of the three listeners registered on the socket fires first.
    The listener for the completed handshake and the one for the idle
    timeout destroy the socket, and an errored socket is destroyed by the
    runtime, so no second listener runs. *)
Inductive SocketEvent : Type :=
| secureConnect (peer : option PeerCertificate)
| socketError
| socketTimeout.

(** What the inspector meets: whether [new URL(url)] accepts the URL,
    the socket event, and the reading of [new Date()] in the handshake
    listener. *)
Record TlsWorld : Type := mkTls {
  URL_accepts : bool;
  socket_event : SocketEvent;
  now : Z
}.

(** What a socket listener does to the promise. *)
Inductive Listener (A : Type) : Type :=
| Resolve (a : A)
| Uncaught.
Arguments Resolve {A} a.
Arguments Uncaught {A}.

(** The callback passed to [tls.connect].  Time values are integers of
    milliseconds; on them, within the range of [Date], the floating
    point quotient by [ms_per_day] followed by [Math.floor] is the
    integer floor division.  A comparison with an Invalid Date is false
    and [toISOString] throws a RangeError on one; thrown inside a
    listener, after the socket was destroyed, it is caught by nobody and
    [resolve] is never reached. *)
Definition onSecureConnect (now : Z) (peer : option PeerCertificate)
  : Listener SslInfo.t :=
  match peer with
  | None => Resolve SslInfo.invalid
  | Some cert =>
      match valid_from cert, valid_to cert with
      | DateMissing, _ | _, DateMissing => Resolve SslInfo.invalid
      | DateAt validFrom, DateAt validTo =>
          let isValid := (validFrom <=? now) && (now <=? validTo) in
          let daysRemaining := (validTo - now) / ms_per_day in
          Resolve (SslInfo.mk isValid
                              (Some (toISODate validTo))
                              (Some daysRemaining)
                              (Some (toISODate validFrom)))
      | _, _ => Uncaught
      end
  end.

(** The three listeners: the handshake callback, [socket.on('error')]
    and [socket.setTimeout(5000)]. *)
Definition onSocket (now : Z) (ev : SocketEvent) : Listener SslInfo.t :=
  match ev with
  | secureConnect peer => onSecureConnect now peer
  | socketError => Resolve SslInfo.invalid
  | socketTimeout => Resolve SslInfo.invalid
  end.

(** URLs that are not https and URLs [new URL] throws on (caught by
    the [catch]) give [{ ssl_valid: false }] without a connection; the
    others give whatever the first listener resolves with. *)
Definition getSSLCertificateInfo (w : TlsWorld) (url : string)
  : IO SslInfo.t :=
  if negb (startsWith_https url) then ret SslInfo.invalid
  else if negb (URL_accepts w) then ret SslInfo.invalid
  else
    perform (TlsConnect url) ;;;
    match onSocket (now w) (socket_event w) with
    | Resolve info => ret info
    | Uncaught => (NeverSettles, [])
    end.

(** ** Liveness prober *)

(** The value a rejected [fetch] throws. *)
Record JsError : Type := mkError {
  name : string;
  message : string
}.

(** How [fetch] ends: a response with its HTTP status code, or a
    rejection.  The abort fired by the 30 second timer rejects with an
    error named AbortError. *)
Inductive FetchOutcome : Type :=
| Response (code : Z)
| Rejection (e : JsError).

(** [response.ok]: the status is in the range 200-299. *)
Definition Response_ok (code : Z) : bool := (200 <=? code) && (code <=? 299).

(** What the prober meets: the two readings of [Date.now()] and the end
    of the request. *)
Record ProbeWorld : Type := mkProbe {
  startTime : Z;
  endTime : Z;
  fetch_outcome : FetchOutcome
}.

(** One GET; the [try] branch classifies the response, the [catch]
    branch the rejection. *)
Definition checkWebsiteStatus (w : ProbeWorld) (url : string)
  : IO StatusCheck.t :=
  perform (Fetch url) ;;;
  match fetch_outcome w with
  | Response code =>
      let response_time := endTime w - startTime w in
      ret (StatusCheck.mk (if Response_ok code then up else down)
                          (startsWith_https url && Response_ok code)
                          (Some response_time)
                          None)
  | Rejection e =>
      let response_time := endTime w - startTime w in
      let error_message :=
        if String.eqb (name e) "AbortError" then "Request timeout"
        else if truthy (message e) then String.substring 0 100 (message e)
        else "Connection failed" in
      ret (StatusCheck.mk error false (Some response_time)
                          (Some error_message))
  end.

(** ** Page capturer *)

(** What the capturer meets: which awaited browser calls come back, and
    the reading of [Date.now()] that names the file. *)
Record BrowserWorld : Type := mkBrowser {
  op_ok : BrowserOp -> bool;
  Date_now : Z
}.

(** [await] one browser call: it comes back or it rejects. *)
Definition await_op (w : BrowserWorld) (op : BrowserOp) : IO unit :=
  if op_ok w op then perform (Browser op true)
  else (Throws, [Browser op false]).

(** [try { launch; page calls; return the reference }
     catch { console.error; return null }
     finally { if (browser) await browser.close() }] *)
Definition takeScreenshot (w : BrowserWorld) (url : string) (id : Z)
  : IO (option string) :=
  let launched := await_op w launch in
  (* [let browser;] is assigned by the first statement of the [try]
     block, so it is set exactly when the launch came back. *)
  let browser :=
    match fst launched with Returns _ => true | _ => false end in
  try_finally
    (try_catch
       (launched ;;;
        await_op w newPage ;;;
        await_op w setViewportSize ;;;
        await_op w goto ;;;
        await_op w waitForTimeout ;;;
        let fileName :=
          String.append (Number_toString id)
            (String.append "_"
               (String.append (Number_toString (Date_now w)) ".png")) in
        await_op w screenshot ;;;
        ret (Some (String.append "/screenshots/" fileName)))
       (perform ConsoleError ;;; ret None))
    (if browser then await_op w close else ret tt).

(** ** Batch handler *)

(** The value bound by [const { websites } = await request.json()].
    The items of an array are the [Website] rows of the declared type. *)
Inductive JsValue : Type :=
| JsUndefined
| JsNull
| JsBool (b : bool)
| JsNumber (n : Z)
| JsString (s : string)
| JsObject
| JsArray (items : list Website.t).

Definition JsValue_truthy (v : JsValue) : bool :=
  match v with
  | JsUndefined | JsNull => false
  | JsBool b => b
  | JsNumber n => negb (n =? 0)
  | JsString s => truthy s
  | JsObject | JsArray _ => true
  end.

Definition Array_isArray (v : JsValue) : bool :=
  match v with JsArray _ => true | _ => false end.

Definition Array_items (v : JsValue) : list Website.t :=
  match v with JsArray items => items | _ => [] end.

(** The request: [json_websites] is [None] when [request.json()] rejects
    or the destructuring of its value throws (a body that is not JSON, or
    is [null]); otherwise it is the [websites] member of the body,
    [JsUndefined] when there is none. *)
Record NextRequest : Type := mkRequest {
  json_websites : option JsValue
}.

Inductive Body : Type :=
| Results (results : list ScreenshotResult)
| ErrorBody (error : string).

(** [NextResponse.json(body, { status })], 200 when no status is given. *)
Record NextResponse : Type := mkResponse {
  body : Body;
  http_status : Z
}.

(** What one website of the batch meets. *)
Record SiteWorld : Type := mkSite {
  probe : ProbeWorld;
  tls : TlsWorld;
  browser : BrowserWorld
}.

(** The body of the [for (const website of websites)] loop, up to the
    result it pushes. *)
Definition POST_site (w : SiteWorld) (website : Website.t)
  : IO ScreenshotResult :=
  perform ConsoleLog ;;;
  statusCheck <- checkWebsiteStatus (probe w) (Website.url website) ;;
  sslInfo <- getSSLCertificateInfo (tls w) (Website.url website) ;;
  shot <- takeScreenshot (browser w) (Website.url website)
                         (Website.id website) ;;
  let screenshot_path := or_undefined shot in
  let override :=
    truthy_opt screenshot_path
    && negb (Status_eqb (StatusCheck.status statusCheck) up) in
  (if override then perform ConsoleLog else ret tt) ;;;
  let finalStatus :=
    if override then up else StatusCheck.status statusCheck in
  let finalSSLValid :=
    if negb (SslInfo.ssl_valid sslInfo)
       && truthy_opt screenshot_path
       && startsWith_https (Website.url website)
    then true
    else SslInfo.ssl_valid sslInfo in
  ret {| id := Website.id website;
         url := Website.url website;
         screenshot_path := screenshot_path;
         status := finalStatus;
         ssl_valid := finalSSLValid;
         ssl_expires := SslInfo.ssl_expires sslInfo;
         ssl_days_remaining := SslInfo.ssl_days_remaining sslInfo;
         ssl_issued_date := SslInfo.ssl_issued_date sslInfo;
         response_time := StatusCheck.response_time statusCheck;
         error_message :=
           if truthy_opt screenshot_path then None
           else StatusCheck.error_message statusCheck |}.

(** The loop: the websites one after the other, the [i]-th one in the
    world [world i], each result pushed at the end of [results]. *)
Fixpoint POST_loop (world : nat -> SiteWorld) (i : nat)
    (websites : list Website.t) (results : list ScreenshotResult)
  : IO (list ScreenshotResult) :=
  match websites with
  | [] => ret results
  | website :: rest =>
      result <- POST_site (world i) website ;;
      POST_loop world (S i) rest (results ++ [result])
  end.

Definition POST (request : NextRequest) (world : nat -> SiteWorld)
  : IO NextResponse :=
  try_catch
    (match json_websites request with
     | None => throw
     | Some websites =>
         if negb (JsValue_truthy websites)
            || negb (Array_isArray websites)
            || Nat.eqb (List.length (Array_items websites)) 0
         then ret {| body := ErrorBody "No websites provided";
                     http_status := 400 |}
         else
           results <- POST_loop world 0 (Array_items websites) [] ;;
           ret {| body := Results results; http_status := 200 |}
     end)
    (perform ConsoleError ;;;
     ret {| body := ErrorBody "Internal server error";
            http_status := 500 |}).

(** ** Notions used in the statements *)

(** All the page calls between [launch] and [close] come back. *)
Definition page_ops_ok (w : BrowserWorld) : bool :=
  op_ok w newPage && op_ok w setViewportSize && op_ok w goto
  && op_ok w waitForTimeout && op_ok w screenshot.

(** [`/screenshots/${id}_${Date.now()}.png`], the reference a successful
    capture returns. *)
Definition screenshot_ref (w : BrowserWorld) (id : Z) : string :=
  String.append "/screenshots/"
    (String.append (Number_toString id)
       (String.append "_"
          (String.append (Number_toString (Date_now w)) ".png"))).

(** An iteration pushes a result exactly when the inspector settles and
    the capturer does not throw. *)
Definition site_settles (sw : SiteWorld) (w : Website.t) : bool :=
  match fst (getSSLCertificateInfo (tls sw) (Website.url w)),
        fst (takeScreenshot (browser sw) (Website.url w) (Website.id w)) with
  | Returns _, Returns _ => true
  | _, _ => false
  end.

(** The handler answers [rs] to the batch [ws]: status 200, body [rs]. *)
Definition answers (request : NextRequest) (world : nat -> SiteWorld)
    (ws : list Website.t) (rs : list ScreenshotResult) : Prop :=
  json_websites request = Some (JsArray ws)
  /\ fst (POST request world)
     = Returns {| body := Results rs; http_status := 200 |}.

(** [r] is the result the handler gives for [w], the [k]-th website of
    the batch. *)
Definition batch_result (request : NextRequest) (world : nat -> SiteWorld)
    (k : nat) (w : Website.t) (r : ScreenshotResult) : Prop :=
  exists ws rs,
    answers request world ws rs
    /\ nth_error ws k = Some w /\ nth_error rs k = Some r.

(** The object built from a certificate whose two dates parse. *)
Definition cert_info (t validFrom validTo : Z) : SslInfo.t :=
  SslInfo.mk ((validFrom <=? t) && (t <=? validTo))
             (Some (toISODate validTo))
             (Some ((validTo - t) / ms_per_day))
             (Some (toISODate validFrom)).

(** The handshake completed on an accepted https URL and the peer
    certificate carries two parseable dates. *)
Definition reads_certificate (w : TlsWorld) (u : string)
    (validFrom validTo : Z) : Prop :=
  startsWith_https u = true
  /\ URL_accepts w = true
  /\ socket_event w
     = secureConnect (Some (mkCert (DateAt validFrom) (DateAt validTo))).

(** Whether the capture of a result succeeded: its screenshot reference
    is present. *)
Definition captured (r : ScreenshotResult) : bool :=
  match screenshot_path r with Some _ => true | None => false end.

(** The website list of a request is missing, is not a list, or is
    empty.  A request whose body cannot be read has no list either. *)
Definition no_website_list (request : NextRequest) : Prop :=
  match json_websites request with
  | None => True
  | Some websites =>
      websites = JsUndefined \/ Array_isArray websites = false
      \/ websites = JsArray []
  end.

(** ** Worlds used in the examples *)

Definition all_ok : BrowserOp -> bool := fun _ => true.
Definition fails_at (bad : BrowserOp) : BrowserOp -> bool :=
  fun op => negb (BrowserOp_eqb op bad).

Definition good_cert : PeerCertificate :=
  mkCert (DateAt 1700000000000) (DateAt 1800000000000).

Definition calm_site : SiteWorld :=
  mkSite (mkProbe 1750000000000 1750000000120 (Response 200))
         (mkTls true (secureConnect (Some good_cert)) 1750000000200)
         (mkBrowser all_ok 1750000003000).

Definition example_com : Website.t := Website.mk 1 "https://example.com".

Definition one_site_request : NextRequest :=
  mkRequest (Some (JsArray [example_com])).

Definition github_com : Website.t := Website.mk 2 "https://github.com".

(** A site the prober cannot reach (connection refused) while the
    browser renders it. *)
Definition blocked_site : SiteWorld :=
  mkSite (mkProbe 1750000000000 1750000000040
            (Rejection (mkError "TypeError" "fetch failed")))
         (mkTls true socketError 1750000000200)
         (mkBrowser all_ok 1750000003000).

(** A site whose certificate expired before the inspection, while the
    prober is answered and the browser renders the page. *)
Definition expired_cert : PeerCertificate :=
  mkCert (DateAt 1600000000000) (DateAt 1700000000000).

Definition expired_site : SiteWorld :=
  mkSite (mkProbe 1750000000000 1750000000120 (Response 200))
         (mkTls true (secureConnect (Some expired_cert)) 1750000000200)
         (mkBrowser all_ok 1750000003000).

(** A site that answers 404 and whose navigation times out. *)
Definition dead_site : SiteWorld :=
  mkSite (mkProbe 1750000000000 1750000000090 (Response 404))
         (mkTls true socketTimeout 1750000000200)
         (mkBrowser (fails_at goto) 1750000003000).

(** A site nothing reaches: the request is refused and the navigation
    fails. *)
Definition unreachable_site : SiteWorld :=
  mkSite (mkProbe 1750000000000 1750000000040
            (Rejection (mkError "TypeError" "fetch failed")))
         (mkTls true socketError 1750000000200)
         (mkBrowser (fails_at goto) 1750000003000).

(** A browser whose navigation times out and whose [close] rejects. *)
Definition stuck_browser : BrowserWorld :=
  mkBrowser (fun op => match op with goto | close => false | _ => true end)
            1750000003000.

(** A batch whose first website is calm and whose later websites meet
    the stuck browser. *)
Definition stuck_after_first : nat -> SiteWorld :=
  fun k => match k with
           | O => calm_site
           | _ => mkSite (probe calm_site) (tls calm_site) stuck_browser
           end.

(** The blocked site, had its GET been answered. *)
Definition unblocked_site : SiteWorld :=
  mkSite (probe calm_site) (tls blocked_site) (browser blocked_site).

Definition plain_http : Website.t := Website.mk 3 "http://example.org".

(** ** Reading a trace *)

(** The targets of the GET requests of a trace, in order. *)
Fixpoint fetched (tr : list Effect) : list string :=
  match tr with
  | [] => []
  | Fetch u :: rest => u :: fetched rest
  | _ :: rest => fetched rest
  end.

(** The targets of the TLS connections of a trace, in order. *)
Fixpoint connected (tr : list Effect) : list string :=
  match tr with
  | [] => []
  | TlsConnect u :: rest => u :: connected rest
  | _ :: rest => connected rest
  end.

(** The number of browser launches a trace attempts. *)
Fixpoint launches (tr : list Effect) : nat :=
  match tr with
  | [] => 0%nat
  | Browser launch _ :: rest => S (launches rest)
  | _ :: rest => launches rest
  end.

(** The discipline of the browser instances along a trace, from a state
    where an instance is open or not: a launch needs no instance open
    and opens one when it comes back; the page calls and [close] need
    one open; the call of [close], come back or rejected, ends the turn
    of the instance; a GET or a TLS connection is made with no instance
    open.  [None] when the trace breaks the discipline, otherwise
    whether an instance is open at the end. *)
Fixpoint browser_protocol (open : bool) (tr : list Effect) : option bool :=
  match tr with
  | [] => Some open
  | Browser launch ok :: rest =>
      if open then None else browser_protocol ok rest
  | Browser close _ :: rest =>
      if open then browser_protocol false rest else None
  | Browser _ _ :: rest =>
      if open then browser_protocol true rest else None
  | (Fetch _ | TlsConnect _) :: rest =>
      if open then None else browser_protocol false rest
  | (ConsoleLog | ConsoleError) :: rest => browser_protocol open rest
  end.

(** No character of the string is an underscore. *)
Fixpoint no_underscore (s : string) : bool :=
  match s with
  | EmptyString => true
  | String c rest => negb (Ascii.eqb c "_") && no_underscore rest
  end.

(** ** The screenshots page ([src/app/screenshots/page.tsx]) *)

(** [ScreenshotStatus['status']]: the three statuses of the route,
    and ['checking']. *)
Inductive DisplayStatus : Type :=
| Reported (s : Status)
| checking.

(** [type ScreenshotStatus], the rows of the page. *)
Module ScreenshotStatus.
Record t : Type := mk {
  id : Z;
  url : string;
  screenshot_path : option string;
  status : DisplayStatus;
  ssl_valid : bool;
  ssl_expires : option string;
  ssl_days_remaining : option Z;
  ssl_issued_date : option string;
  response_time : option Z;
  error_message : option string
}.
End ScreenshotStatus.

(** A result of the route read back by [await response.json()] as a
    row: the same members, the status among the three of the route. *)
Definition of_result (r : ScreenshotResult) : ScreenshotStatus.t :=
  ScreenshotStatus.mk (id r) (url r) (screenshot_path r)
    (Reported (status r)) (ssl_valid r) (ssl_expires r)
    (ssl_days_remaining r) (ssl_issued_date r) (response_time r)
    (error_message r).

(** [websites.map(w => ({ id: w.id, url: w.url, status: 'checking',
    ssl_valid: false }))] *)
Definition initialScreenshots (websites : list Website.t)
  : list ScreenshotStatus.t :=
  map (fun w =>
         ScreenshotStatus.mk (Website.id w) (Website.url w) None checking
           false None None None None None)
      websites.

(** The calls of the state setters of [ScreenshotsPage]. *)
Inductive Update : Type :=
| setWebsites (websites : list Website.t)
| setScreenshots (rows : list ScreenshotStatus.t)
| setLoading (b : bool)
| setError (msg : string)
| setSuccess (msg : string)
| setSelectedScreenshot (row : option ScreenshotStatus.t).

(** The state of the page, one member per [useState]. *)
Module PageState.
Record t : Type := mk {
  websites : list Website.t;
  screenshots : list ScreenshotStatus.t;
  loading : bool;
  error : string;
  success : string;
  selectedScreenshot : option ScreenshotStatus.t
}.
(** The initial values given to [useState]. *)
Definition initial : t := mk [] [] false "" "" None.
End PageState.

Definition apply_update (st : PageState.t) (u : Update) : PageState.t :=
  match u with
  | setWebsites ws =>
      PageState.mk ws (PageState.screenshots st) (PageState.loading st)
        (PageState.error st) (PageState.success st)
        (PageState.selectedScreenshot st)
  | setScreenshots rows =>
      PageState.mk (PageState.websites st) rows (PageState.loading st)
        (PageState.error st) (PageState.success st)
        (PageState.selectedScreenshot st)
  | setLoading b =>
      PageState.mk (PageState.websites st) (PageState.screenshots st) b
        (PageState.error st) (PageState.success st)
        (PageState.selectedScreenshot st)
  | setError msg =>
      PageState.mk (PageState.websites st) (PageState.screenshots st)
        (PageState.loading st) msg (PageState.success st)
        (PageState.selectedScreenshot st)
  | setSuccess msg =>
      PageState.mk (PageState.websites st) (PageState.screenshots st)
        (PageState.loading st) (PageState.error st) msg
        (PageState.selectedScreenshot st)
  | setSelectedScreenshot row =>
      PageState.mk (PageState.websites st) (PageState.screenshots st)
        (PageState.loading st) (PageState.error st) (PageState.success st)
        row
  end.

Definition apply_updates (st : PageState.t) (us : list Update)
  : PageState.t :=
  fold_left apply_update us st.

(** What [fetch('/api/screenshot', ...)] resolves with, as the page reads
    it: the HTTP status, and the body as the rows the page takes it
    for. *)
Record ApiResponse : Type := mkApi {
  api_status : Z;
  api_rows : list ScreenshotStatus.t
}.

(** [generateScreenshots], for the [websites] of the render that made
    the handler and for the end of its [fetch]: the setters called
    before the [await] (all of them when the handler returns early),
    and the setters called once the [fetch] has settled. *)
Definition generateScreenshots (websites : list Website.t)
    (response : Outcome ApiResponse)
  : list Update * Outcome (list Update) :=
  if Nat.eqb (List.length websites) 0 then
    ([setError "No websites to process. Add some URLs first."], Returns [])
  else
    ([setLoading true; setError ""; setSuccess "";
      setScreenshots (initialScreenshots websites)],
     let failed :=
       [setError
          "Failed to generate screenshots. Make sure the API is working.";
        setLoading false] in
     match response with
     | NeverSettles => NeverSettles
     | Throws => Returns failed
     | Returns resp =>
         if negb (Response_ok (api_status resp)) then Returns failed
         else
           let results := api_rows resp in
           Returns
             [setScreenshots results;
              setSuccess
                (String.append "Processed "
                   (String.append
                      (Number_toString (Z.of_nat (List.length results)))
                      " websites successfully!"));
              setLoading false]
     end).

(** The state once the handler is done, when its [fetch] settles. *)
Definition after_generate (st : PageState.t) (response : Outcome ApiResponse)
  : Outcome PageState.t :=
  let '(before, after) :=
    generateScreenshots (PageState.websites st) response in
  match after with
  | Returns us => Returns (apply_updates (apply_updates st before) us)
  | Throws => Throws
  | NeverSettles => NeverSettles
  end.

(** The request [JSON.stringify({ websites })] makes of the rows. *)
Definition page_request (websites : list Website.t) : NextRequest :=
  mkRequest (Some (JsArray websites)).

(** The page's [fetch] answered by the route.  An error body has no rows;
    the page does not read the body of a response that is not ok. *)
Definition fetch_api (world : nat -> SiteWorld) (websites : list Website.t)
  : Outcome ApiResponse :=
  match fst (POST (page_request websites) world) with
  | Returns resp =>
      Returns (mkApi (http_status resp)
                 match body resp with
                 | Results rs => map of_result rs
                 | ErrorBody _ => []
                 end)
  | Throws => Throws
  | NeverSettles => NeverSettles
  end.

(** The four counters of the statistics panel. *)
Definition stat_total (rows : list ScreenshotStatus.t) : nat :=
  List.length rows.

Definition stat_online (rows : list ScreenshotStatus.t) : nat :=
  List.length
    (filter (fun s => match ScreenshotStatus.status s with
                      | Reported up => true
                      | _ => false
                      end) rows).

Definition stat_offline (rows : list ScreenshotStatus.t) : nat :=
  List.length
    (filter (fun s => match ScreenshotStatus.status s with
                      | Reported down | Reported error => true
                      | _ => false
                      end) rows).

Definition stat_ssl_valid (rows : list ScreenshotStatus.t) : nat :=
  List.length (filter ScreenshotStatus.ssl_valid rows).

(** The status text of a card. *)
Definition card_status_text (s : DisplayStatus) : string :=
  match s with
  | checking => "Checking..."
  | Reported up => "Online"
  | Reported down => "Offline"
  | _ => "Error"
  end.

(** The status text of the modal. *)
Definition modal_status_text (s : DisplayStatus) : string :=
  match s with
  | Reported up => "Online"
  | Reported down => "Offline"
  | _ => "Error"
  end.

(** The colour class of the "Days Left" line. *)
Definition days_left_class (days : Z) : string :=
  if days >? 50 then "text-green-600"
  else if days >? 40 then "text-yellow-500"
  else "text-red-600".

(** The text of the "Days Left" line. *)
Definition days_left_text (days : Z) : string :=
  if days >? 0 then String.append (Number_toString days) " days"
  else "Expired".

(** The "SSL:" line of a card. *)
Definition ssl_text (valid : bool) : string :=
  if valid then "Valid" else "Invalid/None".

(** A certificate with less than a day left at the inspection. *)
Definition last_day_cert : PeerCertificate :=
  mkCert (DateAt 1700000000000) (DateAt 1750000000200).

Example toISODate_epoch : toISODate 0 = "1970-01-01".
Proof. reflexivity. Qed.
Example toISODate_2023 : toISODate 1700000000000 = "2023-11-14".
Proof. reflexivity. Qed.
Example toISODate_leap : toISODate 951782400000 = "2000-02-29".
Proof. reflexivity. Qed.
Example toISODate_before_epoch : toISODate (-1) = "1969-12-31".
Proof. reflexivity. Qed.
Example Number_toString_42 : Number_toString 42 = "42".
Proof. reflexivity. Qed.

Example POST_example :
  fst (POST one_site_request (fun _ => calm_site)) =
  Returns {| body := Results
               [ {| id := 1;
                    url := "https://example.com";
                    screenshot_path :=
                      Some "/screenshots/1_1750000003000.png";
                    status := up;
                    ssl_valid := true;
                    ssl_expires := Some "2027-01-15";
                    ssl_days_remaining := Some 578;
                    ssl_issued_date := Some "2023-11-14";
                    response_time := Some 120;
                    error_message := None |} ];
             http_status := 200 |}.
Proof. vm_compute. reflexivity. Qed.

(** ** Reasoning about computations *)

Lemma bind_fst_Returns {A B} (m : IO A) (k : A -> IO B) (b : B) :
  fst (bind m k) = Returns b ->
  exists a, fst m = Returns a /\ fst (k a) = Returns b.
Proof.
  unfold bind. destruct m as [[a| |] t1]; simpl; try discriminate.
  destruct (k a) as [o t2] eqn:Hk. simpl. intros ->.
  exists a. rewrite Hk. auto.
Qed.

Lemma bind_fst_intro {A B} (m : IO A) (k : A -> IO B) (a : A) :
  fst m = Returns a -> fst (bind m k) = fst (k a).
Proof.
  unfold bind. destruct m as [o t1]. simpl. intros ->.
  destruct (k a); reflexivity.
Qed.

(** ** The prober always answers *)

Lemma checkWebsiteStatus_returns (w : ProbeWorld) (u : string) :
  exists statusCheck,
    checkWebsiteStatus w u = (Returns statusCheck, [Fetch u]).
Proof.
  unfold checkWebsiteStatus. destruct (fetch_outcome w); simpl; eauto.
Qed.

(** ** The inspector never throws; it settles unless a date is invalid *)

Lemma getSSLCertificateInfo_no_throw (w : TlsWorld) (u : string) :
  fst (getSSLCertificateInfo w u) <> Throws.
Proof.
  unfold getSSLCertificateInfo.
  destruct (startsWith_https u), (URL_accepts w); simpl; try discriminate.
  destruct (onSocket (now w) (socket_event w)); simpl; discriminate.
Qed.

Lemma onSecureConnect_Uncaught (t : Z) (peer : option PeerCertificate) :
  onSecureConnect t peer = Uncaught <->
  exists cert, peer = Some cert
    /\ valid_from cert <> DateMissing /\ valid_to cert <> DateMissing
    /\ (valid_from cert = DateInvalid \/ valid_to cert = DateInvalid).
Proof.
  unfold onSecureConnect. destruct peer as [[vf vt]|]; simpl.
  - destruct vf, vt; split; try discriminate;
      try (intros _; eexists; repeat split; eauto; discriminate);
      intros (cert & Hc & H1 & H2 & H3); inversion Hc; subst; simpl in *;
      try congruence; destruct H3; discriminate.
  - split; [discriminate | intros (cert & Hc & _); discriminate].
Qed.

(** ** The capturer in closed form *)

Lemma takeScreenshot_outcome (w : BrowserWorld) (u : string) (i : Z) :
  fst (takeScreenshot w u i) =
  if op_ok w launch then
    if op_ok w close then
      if page_ops_ok w then Returns (Some (screenshot_ref w i))
      else Returns None
    else Throws
  else Returns None.
Proof.
  unfold takeScreenshot, page_ops_ok, screenshot_ref, await_op.
  destruct (op_ok w launch), (op_ok w close), (op_ok w newPage),
    (op_ok w setViewportSize), (op_ok w goto), (op_ok w waitForTimeout),
    (op_ok w screenshot); reflexivity.
Qed.

Lemma screenshot_ref_truthy (w : BrowserWorld) (i : Z) :
  truthy (screenshot_ref w i) = true.
Proof. reflexivity. Qed.

Lemma takeScreenshot_truthy (w : BrowserWorld) (u : string) (i : Z)
    (shot : option string) :
  fst (takeScreenshot w u i) = Returns shot -> or_undefined shot = shot.
Proof.
  rewrite takeScreenshot_outcome.
  destruct (op_ok w launch), (op_ok w close), (page_ops_ok w);
    intros H; inversion H; reflexivity.
Qed.

(** ** One iteration of the loop *)

(** The three awaited values behind a pushed result, and the record
    built from them. *)
Lemma POST_site_Returns (sw : SiteWorld) (w : Website.t) (r : ScreenshotResult) :
  fst (POST_site sw w) = Returns r ->
  exists statusCheck sslInfo shot,
    fst (checkWebsiteStatus (probe sw) (Website.url w)) = Returns statusCheck
    /\ fst (getSSLCertificateInfo (tls sw) (Website.url w)) = Returns sslInfo
    /\ fst (takeScreenshot (browser sw) (Website.url w) (Website.id w))
       = Returns shot
    /\ r = {| id := Website.id w;
              url := Website.url w;
              screenshot_path := shot;
              status :=
                match shot with
                | Some _ => up
                | None => StatusCheck.status statusCheck
                end;
              ssl_valid :=
                SslInfo.ssl_valid sslInfo
                || (match shot with Some _ => true | None => false end
                    && startsWith_https (Website.url w));
              ssl_expires := SslInfo.ssl_expires sslInfo;
              ssl_days_remaining := SslInfo.ssl_days_remaining sslInfo;
              ssl_issued_date := SslInfo.ssl_issued_date sslInfo;
              response_time := StatusCheck.response_time statusCheck;
              error_message :=
                match shot with
                | Some _ => None
                | None => StatusCheck.error_message statusCheck
                end |}.
Proof.
  unfold POST_site. intros H.
  apply bind_fst_Returns in H as (_ & _ & H).
  apply bind_fst_Returns in H as (statusCheck & Hsc & H).
  apply bind_fst_Returns in H as (sslInfo & Hssl & H).
  apply bind_fst_Returns in H as (shot & Hshot & H).
  exists statusCheck, sslInfo, shot. repeat split; trivial.
  rewrite (takeScreenshot_truthy _ _ _ _ Hshot) in H.
  apply bind_fst_Returns in H as (_ & _ & H). simpl in H.
  injection H as <-.
  assert (Ht : forall s, shot = Some s -> truthy s = true).
  { intros s ->. apply takeScreenshot_truthy in Hshot. simpl in Hshot.
    destruct (truthy s); congruence. }
  destruct shot as [s|]; simpl.
  - rewrite (Ht s eq_refl). simpl.
    destruct (StatusCheck.status statusCheck), (SslInfo.ssl_valid sslInfo),
      (startsWith_https (Website.url w)); reflexivity.
  - destruct (SslInfo.ssl_valid sslInfo); reflexivity.
Qed.

Lemma POST_site_settles (sw : SiteWorld) (w : Website.t) :
  site_settles sw w = true -> exists r, fst (POST_site sw w) = Returns r.
Proof.
  unfold site_settles, POST_site. intros H.
  destruct (checkWebsiteStatus_returns (probe sw) (Website.url w))
    as (statusCheck & Hsc).
  destruct (getSSLCertificateInfo (tls sw) (Website.url w))
    as [[sslInfo| |] t2]; simpl in H; try discriminate.
  destruct (takeScreenshot (browser sw) (Website.url w) (Website.id w))
    as [[shot| |] t3]; simpl in H; try discriminate.
  rewrite Hsc. simpl.
  match goal with
  | |- context [if ?b then perform ConsoleLog else ret tt] => destruct b
  end; simpl; eauto.
Qed.

(** ** The loop and the handler *)

Section Batch.

Variable world : nat -> SiteWorld.

Lemma POST_loop_Returns (ws : list Website.t) :
  forall (i : nat) (acc rs : list ScreenshotResult),
    fst (POST_loop world i ws acc) = Returns rs ->
    exists new,
      rs = acc ++ new
      /\ List.length new = List.length ws
      /\ forall k w r,
           nth_error ws k = Some w -> nth_error new k = Some r ->
           fst (POST_site (world (i + k)%nat) w) = Returns r.
Proof.
  induction ws as [|w ws IH]; intros i acc rs H.
  - simpl in H. injection H as <-. exists []. rewrite app_nil_r.
    repeat split; trivial. intros [|k] w r Hw; discriminate.
  - simpl in H. apply bind_fst_Returns in H as (r0 & Hr0 & H).
    apply IH in H as (new & -> & Hlen & Hnth).
    exists (r0 :: new). rewrite <- app_assoc. simpl.
    repeat split; [congruence|].
    intros [|k] w' r Hw Hr; simpl in *.
    + injection Hw as <-. injection Hr as <-.
      now rewrite Nat.add_0_r.
    + rewrite Nat.add_succ_r. now apply Hnth.
Qed.

Lemma POST_loop_settles (ws : list Website.t) :
  forall (i : nat) (acc : list ScreenshotResult),
    (forall k w, nth_error ws k = Some w ->
                 site_settles (world (i + k)%nat) w = true) ->
    exists rs, fst (POST_loop world i ws acc) = Returns rs.
Proof.
  induction ws as [|w ws IH]; intros i acc Hall.
  - simpl. eauto.
  - destruct (POST_site_settles (world i) w) as (r & Hr).
    { specialize (Hall 0%nat w eq_refl). now rewrite Nat.add_0_r in Hall. }
    simpl. rewrite (bind_fst_intro _ _ _ Hr). apply IH.
    intros k w' Hk. specialize (Hall (S k) w' Hk).
    now rewrite Nat.add_succ_r in Hall.
Qed.

Lemma answers_loop request ws rs :
  answers request world ws rs ->
  ws <> [] /\ fst (POST_loop world 0 ws []) = Returns rs.
Proof.
  intros [Hreq H]. unfold POST in H. rewrite Hreq in H.
  destruct ws as [|w ws]; [discriminate|]. split; [discriminate|].
  cbn [JsValue_truthy Array_isArray Array_items negb orb List.length Nat.eqb]
    in H.
  unfold try_catch in H.
  destruct (POST_loop world 0 (w :: ws) []) as [[rs'| |] t] eqn:Hloop;
    simpl in H; try discriminate.
  now injection H as <-.
Qed.

Lemma batch_result_site request k w r :
  batch_result request world k w r ->
  fst (POST_site (world k) w) = Returns r.
Proof.
  intros (ws & rs & Hans & Hw & Hr).
  apply answers_loop in Hans as [_ Hloop].
  apply POST_loop_Returns in Hloop as (new & -> & _ & Hnth).
  apply (Hnth k w r Hw Hr).
Qed.

Lemma POST_loop_ids (ws : list Website.t) :
  forall (i : nat) (acc rs : list ScreenshotResult),
    fst (POST_loop world i ws acc) = Returns rs ->
    map id rs = map id acc ++ map Website.id ws
    /\ map url rs = map url acc ++ map Website.url ws.
Proof.
  induction ws as [|w ws IH]; intros i acc rs H; simpl in H.
  - injection H as <-. simpl. now rewrite !app_nil_r.
  - apply bind_fst_Returns in H as (r0 & Hr0 & H).
    apply IH in H as [Hid Hurl].
    apply POST_site_Returns in Hr0 as (sc & info & shot & _ & _ & _ & ->).
    rewrite Hid, Hurl, !map_app, <- !app_assoc. simpl. auto.
Qed.

Lemma answers_settles (ws : list Website.t) :
  ws <> [] ->
  (forall k w, nth_error ws k = Some w -> site_settles (world k) w = true) ->
  exists rs, answers (mkRequest (Some (JsArray ws))) world ws rs.
Proof.
  intros Hne Hall.
  destruct (POST_loop_settles ws 0 [] Hall) as (rs & Hrs).
  exists rs. split; [reflexivity|].
  unfold POST. destruct ws as [|w ws]; [congruence|].
  cbn [json_websites JsValue_truthy Array_isArray Array_items negb orb
       List.length Nat.eqb].
  unfold try_catch.
  destruct (POST_loop world 0 (w :: ws) []) as [[rs'| |] t];
    simpl in *; congruence.
Qed.

End Batch.

(** ** The properties *)

(** C1. For every non-empty batch the handler answers, the result list
    is as long as the input list, the results come in the order of their
    inputs, and each result carries the id and the url of its input.
    The handler does answer every non-empty batch whose sites all
    settle. *)
Theorem C1_results_follow_inputs (world : nat -> SiteWorld) (ws : list Website.t) :
  ws <> [] ->
  (forall rs,
      fst (POST (mkRequest (Some (JsArray ws))) world)
      = Returns {| body := Results rs; http_status := 200 |} ->
      List.length rs = List.length ws
      /\ map id rs = map Website.id ws
      /\ map url rs = map Website.url ws
      /\ forall k w r,
           nth_error ws k = Some w -> nth_error rs k = Some r ->
           id r = Website.id w /\ url r = Website.url w)
  /\ ((forall k w, nth_error ws k = Some w ->
                   site_settles (world k) w = true) ->
      exists rs,
        fst (POST (mkRequest (Some (JsArray ws))) world)
        = Returns {| body := Results rs; http_status := 200 |}).
Proof.
  intros Hne. split.
  - intros rs H.
    assert (Hans : answers (mkRequest (Some (JsArray ws))) world ws rs)
      by (split; [reflexivity | exact H]).
    destruct (answers_loop _ _ _ _ Hans) as [_ Hloop].
    destruct (POST_loop_ids _ _ _ _ _ Hloop) as [Hid Hurl]. simpl in *.
    destruct (POST_loop_Returns _ _ _ _ _ Hloop) as (new & Hnew & Hlen & _).
    simpl in Hnew. subst new.
    repeat split; trivial.
    + assert (Hr : batch_result (mkRequest (Some (JsArray ws))) world k w r)
        by (exists ws, rs; auto).
      apply batch_result_site, POST_site_Returns in Hr
        as (sc & info & shot & _ & _ & _ & ->). reflexivity.
    + assert (Hr : batch_result (mkRequest (Some (JsArray ws))) world k w r)
        by (exists ws, rs; auto).
      apply batch_result_site, POST_site_Returns in Hr
        as (sc & info & shot & _ & _ & _ & ->). reflexivity.
  - intros Hall. destruct (answers_settles world ws Hne Hall) as (rs & _ & H).
    eauto.
Qed.

Lemma C1_results_follow_inputs_witness :
  exists rs,
    fst (POST (mkRequest (Some (JsArray [example_com; github_com])))
              (fun _ => calm_site))
    = Returns {| body := Results rs; http_status := 200 |}
    /\ List.length rs = 2%nat
    /\ map id rs = [1; 2]
    /\ map url rs = ["https://example.com"; "https://github.com"].
Proof.
  destruct (C1_results_follow_inputs (fun _ => calm_site)
              [example_com; github_com]) as [Hshape Hanswer].
  - discriminate.
  - destruct Hanswer as (rs & Hrs).
    + intros [|[|[|k]]] w Hw; simpl in Hw; try discriminate;
        injection Hw as <-; reflexivity.
    + exists rs. destruct (Hshape rs Hrs) as (Hlen & Hid & Hurl & _).
      repeat split; assumption.
Defined.

(** C5, as amended. A request whose body is read and whose website
    list is missing, is not a list, or is empty is answered with status
    400 and the error "No websites provided"; the handler has performed
    no effect at all by then.  For every request without a website list,
    one whose body cannot be read included, the handler makes no GET,
    opens no TLS connection and calls no browser (the one effect it may
    perform is the error log of its [catch] block), and its answer
    carries no results. *)
Theorem C5_rejected_before_probing (request : NextRequest)
    (world : nat -> SiteWorld) :
  no_website_list request ->
  (forall websites,
      json_websites request = Some websites ->
      POST request world
      = (Returns {| body := ErrorBody "No websites provided";
                    http_status := 400 |}, []))
  /\ (forall e, In e (snd (POST request world)) -> e = ConsoleError)
  /\ (forall rs code,
        fst (POST request world)
        <> Returns {| body := Results rs; http_status := code |}).
Proof.
  unfold no_website_list. intros Hbad.
  destruct (json_websites request) as [v|] eqn:Hreq.
  - assert (H400 : POST request world
                   = (Returns {| body := ErrorBody "No websites provided";
                                 http_status := 400 |}, [])).
    { unfold POST. rewrite Hreq.
      destruct Hbad as [-> | [Hna | ->]]; try reflexivity.
      rewrite Hna. cbn [negb]. rewrite orb_true_r. reflexivity. }
    split; [|split].
    + intros websites _. exact H400.
    + rewrite H400. intros e [].
    + rewrite H400. discriminate.
  - assert (H500 : POST request world
                   = (Returns {| body := ErrorBody "Internal server error";
                                 http_status := 500 |}, [ConsoleError])).
    { unfold POST. rewrite Hreq. reflexivity. }
    split; [|split].
    + discriminate.
    + rewrite H500. intros e [<- | []]. reflexivity.
    + rewrite H500. discriminate.
Qed.

Lemma C5_rejected_before_probing_witness :
  POST (mkRequest (Some (JsString "https://example.com")))
       (fun _ => calm_site)
  = (Returns {| body := ErrorBody "No websites provided";
                http_status := 400 |}, []).
Proof.
  refine (proj1 (C5_rejected_before_probing
                   (mkRequest (Some (JsString "https://example.com")))
                   (fun _ => calm_site) _)
                (JsString "https://example.com") eq_refl).
  right. left. reflexivity.
Defined.

(** C5, as stated, fails: a request whose body cannot be read (it is
    not JSON, or it is [null]) has no website list, the destructuring
    throws inside the [try] block, and the handler answers with status
    500, not 400. *)
Lemma C5_counterexample :
  ~ (forall request world resp,
        no_website_list request ->
        fst (POST request world) = Returns resp ->
        http_status resp = 400).
Proof.
  intros H.
  specialize (H (mkRequest None) (fun _ => calm_site)
                {| body := ErrorBody "Internal server error";
                   http_status := 500 |} I eq_refl).
  discriminate.
Qed.

(** ** What the inspector resolves with *)

Lemma getSSLCertificateInfo_reads (w : TlsWorld) (u : string)
    (validFrom validTo : Z) :
  reads_certificate w u validFrom validTo ->
  getSSLCertificateInfo w u
  = (Returns (cert_info (now w) validFrom validTo), [TlsConnect u]).
Proof.
  intros (Hs & Hu & He). unfold getSSLCertificateInfo.
  rewrite Hs, Hu, He. reflexivity.
Qed.

Lemma getSSLCertificateInfo_Returns (w : TlsWorld) (u : string)
    (info : SslInfo.t) :
  fst (getSSLCertificateInfo w u) = Returns info ->
  info = SslInfo.invalid
  \/ exists validFrom validTo,
       reads_certificate w u validFrom validTo
       /\ info = cert_info (now w) validFrom validTo.
Proof.
  unfold getSSLCertificateInfo, reads_certificate.
  destruct (startsWith_https u); simpl;
    [|intros H; injection H as <-; now left].
  destruct (URL_accepts w); simpl; [|intros H; injection H as <-; now left].
  destruct (socket_event w) as [[[vf vt]|]| |]; simpl;
    try (intros H; injection H as <-; now left).
  destruct vf as [| |vf], vt as [| |vt]; simpl;
    try discriminate; try (intros H; injection H as <-; now left).
  intros H; injection H as <-. right. exists vf, vt. auto.
Qed.

Lemma batch_result_one (sw : SiteWorld) (w : Website.t) (r : ScreenshotResult) :
  fst (POST (mkRequest (Some (JsArray [w]))) (fun _ => sw))
  = Returns {| body := Results [r]; http_status := 200 |} ->
  batch_result (mkRequest (Some (JsArray [w]))) (fun _ => sw) 0 w r.
Proof.
  intros H. exists [w], [r]. repeat split; trivial.
Qed.





(** C3, as amended. The final [ssl_valid] of a website of a batch is the
    inspector's [ssl_valid], unless the inspector's [ssl_valid] is false
    (whatever the reason: no certificate read, or a certificate read and
    found outside its validity window), the capture succeeded and the URL
    starts with https, in which case it is true. *)
Theorem C3_final_ssl_valid (request : NextRequest) (world : nat -> SiteWorld)
    (k : nat) (w : Website.t) (r : ScreenshotResult) (sslInfo : SslInfo.t) :
  batch_result request world k w r ->
  fst (getSSLCertificateInfo (tls (world k)) (Website.url w))
  = Returns sslInfo ->
  ssl_valid r =
    (if negb (SslInfo.ssl_valid sslInfo) && captured r
        && startsWith_https (Website.url w)
     then true else SslInfo.ssl_valid sslInfo)
  /\ (SslInfo.ssl_valid sslInfo = true -> ssl_valid r = true)
  /\ (captured r = false -> ssl_valid r = SslInfo.ssl_valid sslInfo)
  /\ (startsWith_https (Website.url w) = false ->
      ssl_valid r = SslInfo.ssl_valid sslInfo).
Proof.
  intros Hr Hinfo.
  apply batch_result_site, POST_site_Returns in Hr
    as (sc & info & shot & _ & Hinfo' & _ & ->).
  rewrite Hinfo in Hinfo'. injection Hinfo' as <-.
  unfold captured. simpl.
  destruct (SslInfo.ssl_valid sslInfo), shot,
    (startsWith_https (Website.url w)); simpl; repeat split;
    auto; discriminate.
Qed.

Lemma C3_final_ssl_valid_witness :
  exists r,
    batch_result (mkRequest (Some (JsArray [example_com])))
                 (fun _ => dead_site) 0 example_com r
    /\ ssl_valid r = false.
Proof.
  eexists. split; [apply batch_result_one; vm_compute; reflexivity|].
  refine (eq_trans (proj1 (C3_final_ssl_valid _ _ 0%nat example_com _
            SslInfo.invalid
            (batch_result_one dead_site example_com _ _) _)) _).
  - vm_compute. reflexivity.
  - vm_compute. reflexivity.
  - reflexivity.
Defined.

(** C3, as stated, fails: the inspector reads a certificate that expired
    579 days ago and resolves with [ssl_valid] false and all three
    certificate members present, the capture succeeds on the https URL,
    and the final [ssl_valid] is true. *)
Lemma C3_counterexample :
  ~ (forall request world k w r sslInfo,
        batch_result request world k w r ->
        fst (getSSLCertificateInfo (tls (world k)) (Website.url w))
        = Returns sslInfo ->
        SslInfo.ssl_days_remaining sslInfo <> None ->
        ssl_valid r = SslInfo.ssl_valid sslInfo).
Proof.
  intros H.
  specialize (H (mkRequest (Some (JsArray [example_com])))
                (fun _ => expired_site) 0%nat example_com
                {| id := 1;
                   url := "https://example.com";
                   screenshot_path := Some "/screenshots/1_1750000003000.png";
                   status := up;
                   ssl_valid := true;
                   ssl_expires := Some "2023-11-14";
                   ssl_days_remaining := Some (-579);
                   ssl_issued_date := Some "2020-09-13";
                   response_time := Some 120;
                   error_message := None |}
                (SslInfo.mk false (Some "2023-11-14") (Some (-579))
                            (Some "2020-09-13"))).
  assert (Hfalse : true = false).
  { apply H.
    - apply batch_result_one. vm_compute. reflexivity.
    - vm_compute. reflexivity.
    - discriminate. }
  discriminate.
Qed.



Lemma substring_length_le (n : nat) (s : string) :
  (String.length (String.substring 0 n s) <= n)%nat.
Proof.
  revert s. induction n as [|n IH]; intros [|c s]; simpl; try lia.
  specialize (IH s). lia.
Qed.

Lemma substring_short (n : nat) (s : string) :
  (String.length s <= n)%nat -> String.substring 0 n s = s.
Proof.
  revert s. induction n as [|n IH]; intros [|c s]; simpl; trivial;
    try lia.
  intros H. f_equal. apply IH. lia.
Qed.

(** C6, as amended. The prober always answers, after one GET: a response
    in the success range gives [up], any other response gives [down],
    both without a message; a rejection gives [error], with the message
    "Request timeout" when it is the abort of the 30 second timer, with
    the first 100 characters of the failure's description when that is
    not empty, and with "Connection failed" when the failure has no
    description. *)
Theorem C6_probe_outcomes (w : ProbeWorld) (u : string) :
  exists statusCheck,
    checkWebsiteStatus w u = (Returns statusCheck, [Fetch u])
    /\ match fetch_outcome w with
       | Response code =>
           StatusCheck.status statusCheck
           = (if (200 <=? code) && (code <=? 299) then up else down)
           /\ StatusCheck.error_message statusCheck = None
       | Rejection e =>
           StatusCheck.status statusCheck = error
           /\ exists msg,
                StatusCheck.error_message statusCheck = Some msg
                /\ (String.length msg <= 100)%nat
                /\ (name e = "AbortError" -> msg = "Request timeout")
                /\ (name e <> "AbortError" -> message e <> "" ->
                    msg = String.substring 0 100 (message e)
                    /\ ((String.length (message e) <= 100)%nat ->
                        msg = message e))
                /\ (name e <> "AbortError" -> message e = "" ->
                    msg = "Connection failed")
       end.
Proof.
  unfold checkWebsiteStatus.
  destruct (fetch_outcome w) as [code|e]; simpl.
  - eexists. split; [reflexivity|]. simpl. auto.
  - eexists. split; [reflexivity|]. simpl. split; [reflexivity|].
    eexists. split; [reflexivity|].
    destruct (String.eqb_spec (name e) "AbortError") as [Hn|Hn].
    + split; [simpl; lia|]. split; [reflexivity|].
      split; intros; congruence.
    + destruct (message e) as [|c m] eqn:Hm; cbn [truthy].
      * split; [simpl; lia|]. split; [congruence|].
        split; [congruence | reflexivity].
      * split; [apply substring_length_le|]. split; [congruence|].
        split; [|discriminate].
        intros _ _. split; [reflexivity|]. apply substring_short.
Qed.

(** C6, as stated, fails: a rejection that is not the timer's abort and
    has an empty description is reported as "Connection failed", not as
    the (empty) truncated description. *)
Lemma C6_counterexample :
  ~ (forall w u statusCheck e,
        fst (checkWebsiteStatus w u) = Returns statusCheck ->
        fetch_outcome w = Rejection e ->
        name e <> "AbortError" ->
        StatusCheck.error_message statusCheck
        = Some (String.substring 0 100 (message e))).
Proof.
  intros H.
  specialize (H (mkProbe 0 7 (Rejection (mkError "Error" "")))
                "https://example.com"
                (StatusCheck.mk error false (Some 7)
                                (Some "Connection failed"))
                (mkError "Error" "")
                eq_refl eq_refl).
  simpl in H. assert (Hne : "Error" <> "AbortError") by discriminate.
  specialize (H Hne). discriminate.
Qed.

(** C7. When the inspector reads a certificate whose dates parse, it
    resolves with [ssl_days_remaining] the floor of (expiry minus now)
    over one day, a negative number once the certificate has expired, and
    with [ssl_valid] true exactly when now lies between the two dates,
    bounds included. *)
Theorem C7_days_remaining (w : TlsWorld) (u : string) (validFrom validTo : Z) :
  reads_certificate w u validFrom validTo ->
  exists sslInfo days,
    fst (getSSLCertificateInfo w u) = Returns sslInfo
    /\ SslInfo.ssl_days_remaining sslInfo = Some days
    /\ days = (validTo - now w) / ms_per_day
    /\ days * 86400000 <= validTo - now w < (days + 1) * 86400000
    /\ (validTo < now w -> days < 0)
    /\ (SslInfo.ssl_valid sslInfo = true <->
        validFrom <= now w <= validTo).
Proof.
  intros Hread. rewrite (getSSLCertificateInfo_reads _ _ _ _ Hread).
  exists (cert_info (now w) validFrom validTo),
         ((validTo - now w) / ms_per_day).
  change ms_per_day with 86400000. simpl.
  repeat split; trivial.
  - pose proof (Z.mul_div_le (validTo - now w) 86400000). lia.
  - pose proof (Z.mul_succ_div_gt (validTo - now w) 86400000). lia.
  - intros Hlt. apply Z.div_lt_upper_bound; lia.
  - apply andb_true_iff in H as [H _]. now apply Z.leb_le.
  - apply andb_true_iff in H as [_ H]. now apply Z.leb_le.
  - intros [H1 H2]. apply andb_true_iff. split; now apply Z.leb_le.
Qed.

Lemma C7_days_remaining_witness :
  exists sslInfo,
    fst (getSSLCertificateInfo (tls expired_site) "https://example.com")
    = Returns sslInfo
    /\ SslInfo.ssl_days_remaining sslInfo = Some (-579)
    /\ SslInfo.ssl_valid sslInfo = false.
Proof.
  destruct (C7_days_remaining (tls expired_site) "https://example.com"
              1600000000000 1700000000000)
    as (sslInfo & days & Hret & Hdays & Heq & _ & _ & Hvalid).
  - repeat split.
  - exists sslInfo. split; [exact Hret|]. split.
    + rewrite Hdays, Heq. reflexivity.
    + destruct (SslInfo.ssl_valid sslInfo); [|reflexivity].
      destruct (proj1 Hvalid eq_refl) as [_ Hle]. simpl in Hle.
      exfalso. revert Hle. apply Z.lt_nge. reflexivity.
Defined.

(** The inspector resolves with [{ ssl_valid: false }], no certificate
    member present, for a URL that is not https or that [new URL]
    refuses, when the peer gives no certificate or one that lacks a date,
    on a socket error and on the idle timeout. *)
Lemma getSSLCertificateInfo_invalid_cases (w : TlsWorld) (u : string) :
  startsWith_https u = false
  \/ URL_accepts w = false
  \/ socket_event w = secureConnect None
  \/ (exists cert, socket_event w = secureConnect (Some cert)
        /\ (valid_from cert = DateMissing \/ valid_to cert = DateMissing))
  \/ socket_event w = socketError
  \/ socket_event w = socketTimeout ->
  fst (getSSLCertificateInfo w u) = Returns SslInfo.invalid.
Proof.
  unfold getSSLCertificateInfo.
  destruct (startsWith_https u); [|reflexivity].
  destruct (URL_accepts w); [|reflexivity].
  intros [H | [H | [H | [(cert & H & Hd) | [H | H]]]]];
    try discriminate; rewrite H; try reflexivity.
  simpl. unfold onSecureConnect.
  destruct Hd as [-> | ->]; [reflexivity|].
  destruct (valid_from cert); reflexivity.
Qed.

(** A date string that does not parse leaves the promise unsettled:
    the listener throws before it resolves. *)
Lemma getSSLCertificateInfo_invalid_date (w : TlsWorld) (u : string)
    (cert : PeerCertificate) :
  startsWith_https u = true -> URL_accepts w = true ->
  socket_event w = secureConnect (Some cert) ->
  valid_from cert <> DateMissing -> valid_to cert <> DateMissing ->
  valid_from cert = DateInvalid \/ valid_to cert = DateInvalid ->
  getSSLCertificateInfo w u = (NeverSettles, [TlsConnect u]).
Proof.
  intros Hs Hu He Hf Ht Hbad. unfold getSSLCertificateInfo.
  assert (Hun : onSecureConnect (now w) (Some cert) = Uncaught).
  { apply onSecureConnect_Uncaught. exists cert. auto. }
  rewrite Hs, Hu, He. cbn [negb onSocket]. rewrite Hun. reflexivity.
Qed.



Example takeScreenshot_navigation_timeout :
  takeScreenshot (browser dead_site) "https://example.com" 1
  = (Returns None,
     [Browser launch true; Browser newPage true;
      Browser setViewportSize true; Browser goto false; ConsoleError;
      Browser close true]).
Proof. reflexivity. Qed.

Example takeScreenshot_success :
  takeScreenshot (browser calm_site) "https://example.com" 1
  = (Returns (Some "/screenshots/1_1750000003000.png"),
     [Browser launch true; Browser newPage true;
      Browser setViewportSize true; Browser goto true;
      Browser waitForTimeout true; Browser screenshot true;
      Browser close true]).
Proof. reflexivity. Qed.

(** C9, as amended. A capture that launches a browser calls [close] on
    it on every exit path, exactly once and as its last browser call,
    whether the page calls all came back or one of them rejected; a
    capture whose launch fails has nothing to close and returns null.
    When a page call fails and [close] comes back, the capturer returns
    null rather than throwing; when all calls come back it returns the
    reference of the stored image. *)
Theorem C9_browser_teardown (w : BrowserWorld) (u : string) (i : Z) :
  (op_ok w launch = true ->
     exists calls,
       snd (takeScreenshot w u i)
       = Browser launch true :: calls ++ [Browser close (op_ok w close)]
       /\ forall ok, ~ In (Browser close ok) calls
                     /\ ~ In (Browser launch ok) calls)
  /\ (op_ok w launch = false ->
        takeScreenshot w u i
        = (Returns None, [Browser launch false; ConsoleError]))
  /\ (op_ok w launch = true -> op_ok w close = true ->
        fst (takeScreenshot w u i)
        = if page_ops_ok w then Returns (Some (screenshot_ref w i))
          else Returns None).
Proof.
  split; [|split].
  - unfold takeScreenshot, await_op. intros ->.
    destruct (op_ok w close), (op_ok w newPage), (op_ok w setViewportSize),
      (op_ok w goto), (op_ok w waitForTimeout), (op_ok w screenshot);
      cbn;
      match goal with
      | |- exists calls, _ :: ?rest = _ /\ _ => exists (removelast rest)
      end;
      (split; [reflexivity|]);
      intros ok; simpl; split; intros H;
      repeat (destruct H as [H|H]; [discriminate|]); exact H.
  - unfold takeScreenshot, await_op. intros ->. reflexivity.
  - intros Hl Hc. rewrite takeScreenshot_outcome, Hl, Hc. reflexivity.
Qed.

(** A rejection of [close], awaited in the [finally] block, leaves the
    capturer whatever happened before. *)
Lemma takeScreenshot_close_throws (w : BrowserWorld) (u : string) (i : Z) :
  op_ok w launch = true -> op_ok w close = false ->
  fst (takeScreenshot w u i) = Throws.
Proof.
  intros Hl Hc. rewrite takeScreenshot_outcome, Hl, Hc. reflexivity.
Qed.

(** C9, as stated, fails: the navigation times out, the capturer logs
    the error and goes on to close the browser, [close] rejects, and the
    capturer throws instead of returning null. *)
Lemma C9_counterexample :
  ~ (forall w u i,
        op_ok w goto = false ->
        fst (takeScreenshot w u i) = Returns None).
Proof.
  intros H.
  specialize (H stuck_browser "https://example.com" 1 eq_refl).
  vm_compute in H. discriminate.
Qed.

Example takeScreenshot_close_rejects :
  takeScreenshot stuck_browser "https://example.com" 1
  = (Throws,
     [Browser launch true; Browser newPage true;
      Browser setViewportSize true; Browser goto false; ConsoleError;
      Browser close false]).
Proof. reflexivity. Qed.

(** ** The handler's other ways out *)

(** A body that cannot be read is answered with status 500, again before
    any probing. *)
Lemma POST_unreadable (world : nat -> SiteWorld) :
  POST (mkRequest None) world
  = (Returns {| body := ErrorBody "Internal server error";
                http_status := 500 |}, [ConsoleError]).
Proof. reflexivity. Qed.

(** The handler itself never throws: whatever escapes the loop is turned
    into the status 500 answer. *)
Lemma POST_no_throw (request : NextRequest) (world : nat -> SiteWorld) :
  fst (POST request world) <> Throws.
Proof.
  unfold POST, try_catch.
  destruct (json_websites request) as [v|]; [|discriminate].
  destruct (negb (JsValue_truthy v) || negb (Array_isArray v)
            || Nat.eqb (List.length (Array_items v)) 0); [discriminate|].
  destruct (POST_loop world 0 (Array_items v) []) as [[rs| |] t];
    simpl; discriminate.
Qed.

(** A capturer that throws costs the whole batch its results. *)
Example POST_close_rejects :
  fst (POST (mkRequest (Some (JsArray [example_com; github_com])))
            (fun k => match k with
                      | O => calm_site
                      | _ => mkSite (probe calm_site) (tls calm_site)
                                    stuck_browser
                      end))
  = Returns {| body := ErrorBody "Internal server error";
               http_status := 500 |}.
Proof. vm_compute. reflexivity. Qed.

(** ** Further properties of the route *)

Lemma bind_snd {A B} (m : IO A) (k : A -> IO B) :
  snd (bind m k) =
  snd m ++ match fst m with Returns a => snd (k a) | _ => [] end.
Proof.
  unfold bind. destruct m as [[a| |] t]; simpl.
  - destruct (k a); reflexivity.
  - now rewrite app_nil_r.
  - now rewrite app_nil_r.
Qed.

Lemma bind_fst {A B} (m : IO A) (k : A -> IO B) :
  fst (bind m k) =
  match fst m with
  | Returns a => fst (k a)
  | Throws => Throws
  | NeverSettles => NeverSettles
  end.
Proof.
  unfold bind. destruct m as [[a| |] t]; simpl; trivial.
  destruct (k a); reflexivity.
Qed.

Lemma fetched_app (t1 t2 : list Effect) :
  fetched (t1 ++ t2) = fetched t1 ++ fetched t2.
Proof.
  induction t1 as [|e t1 IH]; simpl; trivial.
  destruct e; simpl; rewrite IH; reflexivity.
Qed.

Lemma connected_app (t1 t2 : list Effect) :
  connected (t1 ++ t2) = connected t1 ++ connected t2.
Proof.
  induction t1 as [|e t1 IH]; simpl; trivial.
  destruct e; simpl; rewrite IH; reflexivity.
Qed.

Lemma launches_app (t1 t2 : list Effect) :
  launches (t1 ++ t2) = (launches t1 + launches t2)%nat.
Proof.
  induction t1 as [|e t1 IH]; simpl; trivial.
  destruct e as [u|u|[]ok| |]; simpl; rewrite IH; reflexivity.
Qed.

Lemma browser_protocol_app (t1 t2 : list Effect) :
  forall open,
    browser_protocol open (t1 ++ t2) =
    match browser_protocol open t1 with
    | Some open' => browser_protocol open' t2
    | None => None
    end.
Proof.
  induction t1 as [|e t1 IH]; intros open; simpl; trivial.
  destruct e as [u|u|[]ok| |], open; simpl; trivial.
Qed.

(** The trace of the capturer, whatever the browser does. *)
Lemma takeScreenshot_trace (w : BrowserWorld) (u : string) (i : Z) :
  fetched (snd (takeScreenshot w u i)) = []
  /\ connected (snd (takeScreenshot w u i)) = []
  /\ launches (snd (takeScreenshot w u i)) = 1%nat
  /\ browser_protocol false (snd (takeScreenshot w u i)) = Some false.
Proof.
  unfold takeScreenshot, await_op.
  destruct (op_ok w launch), (op_ok w close), (op_ok w newPage),
    (op_ok w setViewportSize), (op_ok w goto), (op_ok w waitForTimeout),
    (op_ok w screenshot); cbn; auto.
Qed.

Lemma checkWebsiteStatus_trace (w : ProbeWorld) (u : string) :
  snd (checkWebsiteStatus w u) = [Fetch u].
Proof.
  destruct (checkWebsiteStatus_returns w u) as (sc & ->). reflexivity.
Qed.

Lemma getSSLCertificateInfo_trace (w : TlsWorld) (u : string) :
  snd (getSSLCertificateInfo w u) = []
  \/ (startsWith_https u = true
      /\ snd (getSSLCertificateInfo w u) = [TlsConnect u]).
Proof.
  unfold getSSLCertificateInfo.
  destruct (startsWith_https u); simpl; auto.
  destruct (URL_accepts w); simpl; auto.
  right. split; trivial.
  destruct (onSocket (now w) (socket_event w)); reflexivity.
Qed.

(** The trace of one iteration: the log line, the GET, the TLS
    connection if any, then, when the inspector settled, the capturer's
    calls and the log line of the override if any. *)
Lemma POST_site_trace (sw : SiteWorld) (w : Website.t) :
  exists tail,
    snd (POST_site sw w)
    = ConsoleLog :: Fetch (Website.url w)
        :: snd (getSSLCertificateInfo (tls sw) (Website.url w)) ++ tail
    /\ (tail = []
        \/ tail = snd (takeScreenshot (browser sw) (Website.url w)
                                      (Website.id w))
        \/ tail = snd (takeScreenshot (browser sw) (Website.url w)
                                      (Website.id w)) ++ [ConsoleLog])
    /\ (tail = [] <->
        forall info,
          fst (getSSLCertificateInfo (tls sw) (Website.url w))
          <> Returns info).
Proof.
  unfold POST_site.
  rewrite bind_snd. cbn [perform fst snd app].
  rewrite bind_snd, checkWebsiteStatus_trace. cbn [app].
  destruct (checkWebsiteStatus_returns (probe sw) (Website.url w))
    as (sc & Hsc).
  rewrite Hsc. cbn [fst].
  rewrite bind_snd.
  destruct (fst (getSSLCertificateInfo (tls sw) (Website.url w)))
    as [info| |] eqn:Hinfo.
  - rewrite bind_snd.
    pose proof (takeScreenshot_trace (browser sw) (Website.url w)
                  (Website.id w)) as (_ & _ & Hl & _).
    destruct (fst (takeScreenshot (browser sw) (Website.url w)
                     (Website.id w))) as [shot| |] eqn:Hshot.
    + rewrite bind_snd.
      match goal with
      | |- context [if ?b then perform ConsoleLog else ret tt] =>
          destruct b
      end; cbn [perform ret fst snd app].
      * eexists. split; [reflexivity|]. split; [auto|].
        split.
        -- intros H. apply (f_equal launches) in H.
           rewrite launches_app, Hl in H. discriminate.
        -- intros H. now specialize (H info).
      * eexists. split; [rewrite app_nil_r; reflexivity|]. split; [auto|].
        split.
        -- intros H. rewrite H in Hl. discriminate.
        -- intros H. now specialize (H info).
    + eexists. split; [rewrite app_nil_r; reflexivity|]. split; [auto|].
      split.
      * intros H. rewrite H in Hl. discriminate.
      * intros H. now specialize (H info).
    + eexists. split; [rewrite app_nil_r; reflexivity|]. split; [auto|].
      split.
      * intros H. rewrite H in Hl. discriminate.
      * intros H. now specialize (H info).
  - exists []. repeat split; auto; discriminate.
  - exists []. repeat split; auto; discriminate.
Qed.

Lemma POST_site_fetched (sw : SiteWorld) (w : Website.t) :
  fetched (snd (POST_site sw w)) = [Website.url w].
Proof.
  destruct (POST_site_trace sw w) as (tail & -> & Htail & _).
  pose proof (takeScreenshot_trace (browser sw) (Website.url w)
                (Website.id w)) as (Hf & _).
  cbn [fetched]. rewrite fetched_app. f_equal.
  destruct (getSSLCertificateInfo_trace (tls sw) (Website.url w))
    as [-> | [_ ->]];
    destruct Htail as [-> | [-> | ->]];
    rewrite ?fetched_app, ?Hf; reflexivity.
Qed.

Lemma POST_site_connected (sw : SiteWorld) (w : Website.t) (u : string) :
  In u (connected (snd (POST_site sw w))) ->
  u = Website.url w /\ startsWith_https u = true.
Proof.
  destruct (POST_site_trace sw w) as (tail & -> & Htail & _).
  pose proof (takeScreenshot_trace (browser sw) (Website.url w)
                (Website.id w)) as (_ & Hc & _).
  cbn [connected]. rewrite connected_app.
  assert (Ht : connected tail = []).
  { destruct Htail as [-> | [-> | ->]];
      rewrite ?connected_app, ?Hc; reflexivity. }
  rewrite Ht, app_nil_r.
  destruct (getSSLCertificateInfo_trace (tls sw) (Website.url w))
    as [-> | [Hs ->]]; simpl; [tauto|].
  intros [<- | []]. auto.
Qed.

Lemma POST_site_protocol (sw : SiteWorld) (w : Website.t) :
  browser_protocol false (snd (POST_site sw w)) = Some false.
Proof.
  destruct (POST_site_trace sw w) as (tail & -> & Htail & _).
  pose proof (takeScreenshot_trace (browser sw) (Website.url w)
                (Website.id w)) as (_ & _ & _ & Hp).
  cbn [browser_protocol]. rewrite browser_protocol_app.
  assert (Ht : browser_protocol false tail = Some false).
  { destruct Htail as [-> | [-> | ->]];
      rewrite ?browser_protocol_app, ?Hp; reflexivity. }
  destruct (getSSLCertificateInfo_trace (tls sw) (Website.url w))
    as [-> | [_ ->]]; simpl; exact Ht.
Qed.

Lemma POST_site_launches (sw : SiteWorld) (w : Website.t)
    (r : ScreenshotResult) :
  fst (POST_site sw w) = Returns r ->
  launches (snd (POST_site sw w)) = 1%nat.
Proof.
  intros Hr.
  apply POST_site_Returns in Hr as (sc & info & shot & _ & Hinfo & _ & _).
  destruct (POST_site_trace sw w) as (tail & -> & Htail & Hnil).
  pose proof (takeScreenshot_trace (browser sw) (Website.url w)
                (Website.id w)) as (_ & _ & Hl & _).
  cbn [launches]. rewrite launches_app.
  assert (H0 : launches (snd (getSSLCertificateInfo (tls sw)
                                (Website.url w))) = 0%nat).
  { destruct (getSSLCertificateInfo_trace (tls sw) (Website.url w))
      as [-> | [_ ->]]; reflexivity. }
  rewrite H0.
  destruct Htail as [-> | [-> | ->]]; rewrite ?launches_app, ?Hl; trivial.
  exfalso. apply (proj1 Hnil eq_refl info). exact Hinfo.
Qed.

Section BatchTrace.

Variable world : nat -> SiteWorld.

Lemma POST_loop_step (i : nat) (w : Website.t) (rest : list Website.t)
    (acc : list ScreenshotResult) :
  snd (POST_loop world i (w :: rest) acc)
  = snd (POST_site (world i) w)
    ++ match fst (POST_site (world i) w) with
       | Returns r => snd (POST_loop world (S i) rest (acc ++ [r]))
       | _ => []
       end.
Proof. simpl. apply bind_snd. Qed.

Lemma POST_loop_fst_step (i : nat) (w : Website.t) (rest : list Website.t)
    (acc : list ScreenshotResult) :
  fst (POST_loop world i (w :: rest) acc)
  = match fst (POST_site (world i) w) with
    | Returns r => fst (POST_loop world (S i) rest (acc ++ [r]))
    | Throws => Throws
    | NeverSettles => NeverSettles
    end.
Proof. simpl. apply bind_fst. Qed.

Lemma POST_loop_fetched (ws : list Website.t) :
  forall i acc,
    exists ws1 ws2,
      ws = ws1 ++ ws2
      /\ fetched (snd (POST_loop world i ws acc)) = map Website.url ws1
      /\ ((exists rs, fst (POST_loop world i ws acc) = Returns rs) ->
          ws2 = []).
Proof.
  induction ws as [|w ws IH]; intros i acc.
  - exists [], []. simpl. auto.
  - rewrite POST_loop_step, POST_loop_fst_step, fetched_app,
      POST_site_fetched.
    destruct (fst (POST_site (world i) w)) as [r| |].
    + destruct (IH (S i) (acc ++ [r])) as (ws1 & ws2 & -> & Hf & Hall).
      exists (w :: ws1), ws2. simpl. rewrite Hf. auto.
    + exists [w], ws. simpl. repeat split; trivial.
      intros (rs & H). discriminate.
    + exists [w], ws. simpl. repeat split; trivial.
      intros (rs & H). discriminate.
Qed.

Lemma POST_loop_connected (ws : list Website.t) (u : string) :
  forall i acc,
    In u (connected (snd (POST_loop world i ws acc))) ->
    In u (map Website.url ws) /\ startsWith_https u = true.
Proof.
  induction ws as [|w ws IH]; intros i acc.
  - simpl. tauto.
  - rewrite POST_loop_step, connected_app, in_app_iff.
    intros [H | H].
    + apply POST_site_connected in H as [-> Hs]. simpl. auto.
    + destruct (fst (POST_site (world i) w)) as [r| |];
        try (simpl in H; tauto).
      apply IH in H as [H1 H2]. simpl. auto.
Qed.

Lemma POST_loop_protocol (ws : list Website.t) :
  forall i acc,
    browser_protocol false (snd (POST_loop world i ws acc)) = Some false.
Proof.
  induction ws as [|w ws IH]; intros i acc.
  - reflexivity.
  - rewrite POST_loop_step, browser_protocol_app, POST_site_protocol.
    destruct (fst (POST_site (world i) w)); auto.
Qed.

Lemma POST_loop_launches (ws : list Website.t) :
  forall i acc rs,
    fst (POST_loop world i ws acc) = Returns rs ->
    launches (snd (POST_loop world i ws acc)) = List.length ws.
Proof.
  induction ws as [|w ws IH]; intros i acc rs.
  - reflexivity.
  - rewrite POST_loop_step, POST_loop_fst_step, launches_app.
    destruct (fst (POST_site (world i) w)) as [r| |] eqn:Hr;
      try discriminate.
    intros H. rewrite (POST_site_launches _ _ _ Hr), (IH _ _ _ H).
    reflexivity.
Qed.

(** The trace of the handler on an array of websites that is not
    empty: the trace of the loop, then the error log of the [catch]
    block when the loop threw. *)
Lemma POST_trace (request : NextRequest) (w : Website.t)
    (ws : list Website.t) :
  json_websites request = Some (JsArray (w :: ws)) ->
  snd (POST request world)
  = snd (POST_loop world 0 (w :: ws) [])
    ++ match fst (POST_loop world 0 (w :: ws) []) with
       | Throws => [ConsoleError]
       | _ => []
       end
  /\ fst (POST request world)
     = match fst (POST_loop world 0 (w :: ws) []) with
       | Returns rs => Returns {| body := Results rs; http_status := 200 |}
       | Throws => Returns {| body := ErrorBody "Internal server error";
                              http_status := 500 |}
       | NeverSettles => NeverSettles
       end.
Proof.
  intros Hreq. unfold POST. rewrite Hreq.
  cbn [JsValue_truthy Array_isArray Array_items negb orb List.length Nat.eqb].
  unfold try_catch.
  destruct (POST_loop world 0 (w :: ws) []) as [[rs| |] t];
    cbn; rewrite ?app_nil_r; auto.
Qed.

End BatchTrace.

(** X1. The handler probes the websites in input order, one GET each,
    without skipping any: the URLs fetched along the trace are the URLs
    of a prefix of the input list, and of the whole list when the
    handler answers with results. *)
Theorem X1_probes_follow_input_order (request : NextRequest)
    (world : nat -> SiteWorld) (ws : list Website.t) :
  json_websites request = Some (JsArray ws) ->
  exists ws1 ws2,
    ws = ws1 ++ ws2
    /\ fetched (snd (POST request world)) = map Website.url ws1
    /\ (forall rs,
          fst (POST request world)
          = Returns {| body := Results rs; http_status := 200 |} ->
          ws2 = []).
Proof.
  intros Hreq. destruct ws as [|w ws].
  - exists [], []. unfold POST. rewrite Hreq. simpl. auto.
  - destruct (POST_trace world request w ws Hreq) as [Hsnd Hfst].
    destruct (POST_loop_fetched world (w :: ws) 0 [])
      as (ws1 & ws2 & Hsplit & Hf & Hall).
    exists ws1, ws2. rewrite Hsnd, Hfst, fetched_app, Hf. split; [exact Hsplit|].
    split.
    + destruct (fst (POST_loop world 0 (w :: ws) []));
        simpl; now rewrite app_nil_r.
    + intros rs H. apply Hall.
      destruct (fst (POST_loop world 0 (w :: ws) [])) as [rs'| |];
        try discriminate. eauto.
Qed.

Lemma X1_probes_follow_input_order_witness :
  fetched (snd (POST (mkRequest (Some (JsArray [example_com; github_com])))
                     (fun _ => blocked_site)))
  = ["https://example.com"; "https://github.com"].
Proof.
  destruct (X1_probes_follow_input_order
              (mkRequest (Some (JsArray [example_com; github_com])))
              (fun _ => blocked_site) [example_com; github_com] eq_refl)
    as (ws1 & ws2 & Hsplit & Hf & Hall).
  rewrite Hf. rewrite (Hall _ eq_refl), app_nil_r in Hsplit.
  rewrite <- Hsplit. reflexivity.
Defined.

(** X2. Whatever the request and the world, the handler keeps to the
    discipline of the browser instances: at most one instance is open at
    any time, page calls are made on an open instance only, every
    instance launched gets its [close] call before the next GET or TLS
    connection, and none is left without it when the handler is done. *)
Theorem X2_one_browser_at_a_time (request : NextRequest)
    (world : nat -> SiteWorld) :
  browser_protocol false (snd (POST request world)) = Some false.
Proof.
  destruct (json_websites request) as [v|] eqn:Hreq.
  - destruct v as [| | | | | |[|w ws]];
      try (unfold POST; rewrite Hreq; simpl;
           repeat match goal with
                  | |- context [if ?b then _ else _] => destruct b
                  end; reflexivity).
    destruct (POST_trace world request w ws Hreq) as [-> _].
    rewrite browser_protocol_app, POST_loop_protocol.
    destruct (fst (POST_loop world 0 (w :: ws) [])); reflexivity.
  - unfold POST. rewrite Hreq. reflexivity.
Qed.

(** X3. The capture is attempted for every website of an answered
    batch, whatever the prober and the inspector reported: the trace
    holds as many browser launches as the batch has websites. *)
Theorem X3_capture_attempted_for_every_site (request : NextRequest)
    (world : nat -> SiteWorld) (ws : list Website.t)
    (rs : list ScreenshotResult) :
  answers request world ws rs ->
  launches (snd (POST request world)) = List.length ws.
Proof.
  intros Hans. pose proof Hans as [Hreq _].
  apply answers_loop in Hans as [Hne Hloop].
  destruct ws as [|w ws]; [congruence|].
  destruct (POST_trace world request w ws Hreq) as [-> _].
  rewrite Hloop, app_nil_r. apply (POST_loop_launches _ _ _ _ _ Hloop).
Qed.

Lemma X3_capture_attempted_for_every_site_witness :
  launches (snd (POST (mkRequest (Some (JsArray [example_com; github_com])))
                      (fun _ => unreachable_site))) = 2%nat.
Proof.
  eapply (X3_capture_attempted_for_every_site _ _
            [example_com; github_com]).
  split; [reflexivity | vm_compute; reflexivity].
Defined.

(** X4. A TLS connection is opened only for a website of the batch whose
    URL starts with https. *)
Theorem X4_tls_only_for_https (request : NextRequest)
    (world : nat -> SiteWorld) (u : string) :
  In u (connected (snd (POST request world))) ->
  startsWith_https u = true
  /\ exists ws, json_websites request = Some (JsArray ws)
                /\ In u (map Website.url ws).
Proof.
  destruct (json_websites request) as [v|] eqn:Hreq.
  - destruct v as [| | | | | |[|w ws]];
      try (unfold POST; rewrite Hreq; simpl;
           repeat match goal with
                  | |- context [if ?b then _ else _] => destruct b
                  end; simpl; tauto).
    destruct (POST_trace world request w ws Hreq) as [-> _].
    rewrite connected_app, in_app_iff. intros [H | H].
    + apply POST_loop_connected in H as [H1 H2]. eauto.
    + destruct (fst (POST_loop world 0 (w :: ws) [])); simpl in H; tauto.
  - unfold POST. rewrite Hreq. simpl. tauto.
Qed.

Lemma X4_tls_only_for_https_witness :
  startsWith_https "https://example.com" = true.
Proof.
  refine (proj1 (X4_tls_only_for_https one_site_request
                   (fun _ => calm_site) "https://example.com" _)).
  vm_compute. left. reflexivity.
Defined.

Lemma POST_bad_request (request : NextRequest) (world : nat -> SiteWorld)
    (v : JsValue) :
  json_websites request = Some v ->
  Array_isArray v = false \/ v = JsArray [] ->
  POST request world
  = (Returns {| body := ErrorBody "No websites provided";
                http_status := 400 |}, []).
Proof.
  intros Hreq Hbad. unfold POST. rewrite Hreq.
  destruct Hbad as [Hna | ->]; [|reflexivity].
  rewrite Hna. cbn [negb]. rewrite orb_true_r. reflexivity.
Qed.

(** X5. The handler never throws.  When it answers, the answer is one
    of three: status 400 with the error "No websites provided", status
    500 with the error "Internal server error", or status 200 with a
    list of results; a list of results never comes with another
    status. *)
Theorem X5_three_answers (request : NextRequest) (world : nat -> SiteWorld) :
  fst (POST request world) = NeverSettles
  \/ fst (POST request world)
     = Returns {| body := ErrorBody "No websites provided";
                  http_status := 400 |}
  \/ fst (POST request world)
     = Returns {| body := ErrorBody "Internal server error";
                  http_status := 500 |}
  \/ exists rs,
       fst (POST request world)
       = Returns {| body := Results rs; http_status := 200 |}.
Proof.
  destruct (json_websites request) as [v|] eqn:Hreq.
  - destruct v as [| | | | | |[|w ws]];
      try (right; left;
           rewrite (POST_bad_request request world _ Hreq);
           [reflexivity | solve [auto]]).
    destruct (POST_trace world request w ws Hreq) as [_ ->].
    destruct (fst (POST_loop world 0 (w :: ws) [])); eauto.
  - right. right. left. unfold POST. rewrite Hreq. reflexivity.
Qed.

(** X6. Results are all or nothing: on a list of websites that is not
    empty the handler answers with results exactly when every website's
    inspector settles and capturer returns; one capturer that throws or
    one inspector that never settles costs the results of all the
    websites, those already processed included. *)
Theorem X6_results_all_or_nothing (world : nat -> SiteWorld)
    (ws : list Website.t) :
  ws <> [] ->
  (exists rs,
      fst (POST (mkRequest (Some (JsArray ws))) world)
      = Returns {| body := Results rs; http_status := 200 |})
  <-> (forall k w, nth_error ws k = Some w ->
                   site_settles (world k) w = true).
Proof.
  intros Hne. split.
  - intros (rs & H) k w Hw.
    assert (Hans : answers (mkRequest (Some (JsArray ws))) world ws rs)
      by (split; [reflexivity | exact H]).
    destruct (answers_loop _ _ _ _ Hans) as [_ Hloop].
    destruct (POST_loop_Returns _ _ _ _ _ Hloop) as (new & _ & Hlen & Hnth).
    destruct (nth_error new k) as [r|] eqn:Hr.
    + specialize (Hnth k w r Hw Hr). simpl in Hnth.
      apply POST_site_Returns in Hnth
        as (sc & info & shot & _ & Hinfo & Hshot & _).
      unfold site_settles. now rewrite Hinfo, Hshot.
    + apply nth_error_None in Hr.
      assert (Hk : (k < List.length ws)%nat)
        by (apply nth_error_Some; congruence).
      lia.
  - intros Hall. destruct (answers_settles world ws Hne Hall) as (rs & _ & H).
    eauto.
Qed.

Lemma X6_results_all_or_nothing_witness :
  ~ exists rs,
      fst (POST (mkRequest (Some (JsArray [example_com; github_com])))
                stuck_after_first)
      = Returns {| body := Results rs; http_status := 200 |}.
Proof.
  intros H.
  assert (Hne : [example_com; github_com] <> []) by discriminate.
  pose proof (proj1 (X6_results_all_or_nothing stuck_after_first
                       [example_com; github_com] Hne) H 1%nat github_com
                    eq_refl) as Hs.
  vm_compute in Hs. discriminate.
Defined.

(** X7. Every result carries the response time the prober measured,
    the second reading of the clock minus the first, whether the request
    was answered or rejected and whether the capture succeeded or not. *)
Theorem X7_response_time (request : NextRequest) (world : nat -> SiteWorld)
    (k : nat) (w : Website.t) (r : ScreenshotResult) :
  batch_result request world k w r ->
  response_time r
  = Some (endTime (probe (world k)) - startTime (probe (world k))).
Proof.
  intros Hr.
  apply batch_result_site, POST_site_Returns in Hr
    as (sc & info & shot & Hsc & _ & _ & ->).
  simpl. unfold checkWebsiteStatus in Hsc.
  destruct (fetch_outcome (probe (world k))); simpl in Hsc;
    injection Hsc as <-; reflexivity.
Qed.

Lemma X7_response_time_witness :
  exists r,
    batch_result (mkRequest (Some (JsArray [example_com])))
                 (fun _ => unreachable_site) 0 example_com r
    /\ response_time r = Some 40.
Proof.
  eexists. split; [apply batch_result_one; vm_compute; reflexivity|].
  refine (X7_response_time _ _ 0%nat example_com _
            (batch_result_one unreachable_site example_com _ _)).
  vm_compute. reflexivity.
Defined.

(** X8. The prober has no say in the certificate side of a result: two
    runs in which a website meets the same TLS world and the same
    browser world give the same [ssl_valid], the same certificate
    members and the same screenshot reference, whatever the two GET
    requests met.  In particular the [ssl_valid] the prober computes
    never reaches the result. *)
Theorem X8_prober_does_not_touch_ssl (request request' : NextRequest)
    (world world' : nat -> SiteWorld) (k k' : nat) (w : Website.t)
    (r r' : ScreenshotResult) :
  batch_result request world k w r ->
  batch_result request' world' k' w r' ->
  tls (world k) = tls (world' k') ->
  browser (world k) = browser (world' k') ->
  ssl_valid r = ssl_valid r'
  /\ ssl_expires r = ssl_expires r'
  /\ ssl_days_remaining r = ssl_days_remaining r'
  /\ ssl_issued_date r = ssl_issued_date r'
  /\ screenshot_path r = screenshot_path r'.
Proof.
  intros Hr Hr' Htls Hbrowser.
  apply batch_result_site, POST_site_Returns in Hr
    as (sc & info & shot & _ & Hinfo & Hshot & ->).
  apply batch_result_site, POST_site_Returns in Hr'
    as (sc' & info' & shot' & _ & Hinfo' & Hshot' & ->).
  rewrite Htls, Hinfo' in Hinfo. injection Hinfo as <-.
  rewrite Hbrowser, Hshot' in Hshot. injection Hshot as <-.
  simpl. auto.
Qed.

Lemma X8_prober_does_not_touch_ssl_witness :
  exists r r',
    batch_result (mkRequest (Some (JsArray [example_com])))
                 (fun _ => blocked_site) 0 example_com r
    /\ batch_result (mkRequest (Some (JsArray [example_com])))
                    (fun _ => unblocked_site) 0 example_com r'
    /\ response_time r <> response_time r'
    /\ ssl_valid r = ssl_valid r'.
Proof.
  eexists. eexists.
  split; [apply batch_result_one; vm_compute; reflexivity|].
  split; [apply batch_result_one; vm_compute; reflexivity|].
  split; [discriminate|].
  refine (proj1 (X8_prober_does_not_touch_ssl _ _
            (fun _ => blocked_site) (fun _ => unblocked_site) 0%nat 0%nat
            example_com _ _
            (batch_result_one blocked_site example_com _ eq_refl)
            (batch_result_one unblocked_site example_com _ eq_refl)
            eq_refl eq_refl)).
Defined.

Lemma substring_truthy (n : nat) (s : string) :
  truthy s = true -> truthy (String.substring 0 (S n) s) = true.
Proof. destruct s; [discriminate | reflexivity]. Qed.

Lemma checkWebsiteStatus_message (w : ProbeWorld) (u : string)
    (statusCheck : StatusCheck.t) :
  fst (checkWebsiteStatus w u) = Returns statusCheck ->
  (StatusCheck.status statusCheck = error <->
   StatusCheck.error_message statusCheck <> None)
  /\ forall m,
       StatusCheck.error_message statusCheck = Some m ->
       truthy m = true /\ (String.length m <= 100)%nat.
Proof.
  unfold checkWebsiteStatus.
  destruct (fetch_outcome w) as [code|e]; simpl; intros H;
    injection H as <-; simpl.
  - split; [|discriminate].
    destruct (Response_ok code); split; congruence.
  - split; [split; congruence|].
    intros m Hm. injection Hm as <-.
    destruct (String.eqb (name e) "AbortError"); [simpl; split; [trivial|lia]|].
    destruct (truthy (message e)) eqn:Ht; [|simpl; split; [trivial|lia]].
    split; [now apply substring_truthy | apply substring_length_le].
Qed.

(** X9. A result of a batch has an error message exactly when its
    status is [error], and then it has no screenshot; the message is
    never empty and never longer than 100 characters. *)
Theorem X9_error_message_and_status (request : NextRequest)
    (world : nat -> SiteWorld) (k : nat) (w : Website.t)
    (r : ScreenshotResult) :
  batch_result request world k w r ->
  (status r = error <-> error_message r <> None)
  /\ (status r = error -> screenshot_path r = None)
  /\ forall m, error_message r = Some m ->
               m <> "" /\ (String.length m <= 100)%nat.
Proof.
  intros Hr.
  apply batch_result_site, POST_site_Returns in Hr
    as (sc & info & shot & Hsc & _ & _ & ->).
  destruct (checkWebsiteStatus_message _ _ _ Hsc) as [Hiff Hmsg].
  simpl. destruct shot as [p|].
  - split; [split; [discriminate | congruence]|].
    split; [discriminate|]. discriminate.
  - split; [exact Hiff|]. split; [trivial|].
    intros m Hm. destruct (Hmsg m Hm) as [Ht Hlen]. split; [|exact Hlen].
    intros ->. discriminate.
Qed.

Lemma X9_error_message_and_status_witness :
  exists r,
    batch_result (mkRequest (Some (JsArray [example_com])))
                 (fun _ => unreachable_site) 0 example_com r
    /\ status r = error.
Proof.
  eexists. split; [apply batch_result_one; vm_compute; reflexivity|].
  refine (proj2 (proj1 (X9_error_message_and_status _ _ 0%nat example_com _
            (batch_result_one unreachable_site example_com _ eq_refl))) _).
  discriminate.
Defined.

(** ** The names of the stored images *)

Lemma no_underscore_uint (d : Decimal.uint) :
  no_underscore (NilEmpty.string_of_uint d) = true.
Proof. induction d; simpl; trivial. Qed.

Lemma Number_toString_no_underscore (n : Z) :
  no_underscore (Number_toString n) = true.
Proof.
  unfold Number_toString, NilZero.string_of_int, NilZero.string_of_uint.
  destruct (Z.to_int n) as [d|d]; destruct d; simpl; trivial;
    apply no_underscore_uint.
Qed.

Lemma Number_toString_inj (n m : Z) :
  Number_toString n = Number_toString m -> n = m.
Proof.
  unfold Number_toString. intros H.
  apply DecimalZ.to_int_inj.
  assert (Hnil : forall z, Z.to_int z <> Decimal.Pos Decimal.Nil
                           /\ Z.to_int z <> Decimal.Neg Decimal.Nil).
  { intros [|p|p]; simpl; split; try discriminate;
      intros E; injection E as E; now apply DecimalPos.Unsigned.to_uint_nonnil in E. }
  apply (f_equal NilZero.int_of_string) in H.
  rewrite !NilZero.isi in H by apply Hnil.
  now injection H.
Qed.

Lemma append_underscore_inj (s1 s2 t1 t2 : string) :
  no_underscore s1 = true -> no_underscore s2 = true ->
  String.append s1 (String "_" t1) = String.append s2 (String "_" t2) ->
  s1 = s2 /\ t1 = t2.
Proof.
  revert s2. induction s1 as [|c s1 IH]; intros [|c' s2] H1 H2 H; simpl in *.
  - injection H as ->. auto.
  - injection H as <- _. discriminate.
  - injection H as -> _. discriminate.
  - injection H as -> H.
    apply andb_true_iff in H1 as [_ H1]. apply andb_true_iff in H2 as [_ H2].
    destruct (IH s2 H1 H2 H) as [-> ->]. auto.
Qed.

Lemma list_ascii_of_string_append (a b : string) :
  list_ascii_of_string (String.append a b)
  = list_ascii_of_string a ++ list_ascii_of_string b.
Proof. induction a as [|c a IH]; simpl; [trivial | now rewrite IH]. Qed.

Lemma append_inv_tail (a b c : string) :
  String.append a c = String.append b c -> a = b.
Proof.
  intros H. apply (f_equal list_ascii_of_string) in H.
  rewrite !list_ascii_of_string_append in H.
  apply app_inv_tail in H.
  rewrite <- (string_of_list_ascii_of_string a),
          <- (string_of_list_ascii_of_string b).
  now f_equal.
Qed.

Lemma screenshot_ref_inj (w w' : BrowserWorld) (i i' : Z) :
  screenshot_ref w i = screenshot_ref w' i' ->
  i = i' /\ Date_now w = Date_now w'.
Proof.
  unfold screenshot_ref. intros H.
  cbn [String.append] in H.
  repeat (injection H as H).
  apply append_underscore_inj in H as [Hid Hts];
    try apply Number_toString_no_underscore.
  apply append_inv_tail in Hts.
  split; now apply Number_toString_inj.
Qed.

Lemma prefix_append (s t : string) :
  String.prefix s (String.append s t) = true.
Proof.
  induction s as [|c s IH]; simpl.
  - destruct t; reflexivity.
  - destruct (ascii_dec c c); [exact IH | congruence].
Qed.

(** X10. A successful capture returns the reference
    "/screenshots/<id>_<clock>.png".  For website ids and clock readings
    that are safe integers, two successful captures return the same
    reference only when they are for the same id and read the same
    millisecond off the clock: captures of different websites, and
    captures of one website at different milliseconds, never share a
    file name. *)
Theorem X10_image_names_do_not_collide (w w' : BrowserWorld)
    (u u' : string) (i i' : Z) (p : string) :
  Z.abs i <= 9007199254740991 -> Z.abs i' <= 9007199254740991 ->
  0 <= Date_now w <= 9007199254740991 ->
  0 <= Date_now w' <= 9007199254740991 ->
  fst (takeScreenshot w u i) = Returns (Some p) ->
  fst (takeScreenshot w' u' i') = Returns (Some p) ->
  String.prefix "/screenshots/" p = true
  /\ i = i' /\ Date_now w = Date_now w'.
Proof.
  intros _ _ _ _. rewrite !takeScreenshot_outcome.
  destruct (op_ok w launch), (op_ok w close), (page_ops_ok w);
    try discriminate.
  destruct (op_ok w' launch), (op_ok w' close), (page_ops_ok w');
    try discriminate.
  intros H H'.
  assert (E : screenshot_ref w i = screenshot_ref w' i') by congruence.
  injection H as <-.
  split; [apply prefix_append | now apply screenshot_ref_inj].
Qed.

Lemma X10_image_names_do_not_collide_witness :
  String.prefix "/screenshots/" "/screenshots/1_1750000003000.png" = true
  /\ 1 = 1 /\ Date_now (browser calm_site) = Date_now (browser blocked_site).
Proof.
  apply (X10_image_names_do_not_collide (browser calm_site)
           (browser blocked_site) "https://example.com"
           "https://example.com/again" 1 1
           "/screenshots/1_1750000003000.png");
    try (vm_compute; intuition discriminate); reflexivity.
Defined.

(** X11. What the inspector resolves with is coherent: when it reports
    the certificate valid, the three certificate members are present and
    the days remaining are not negative; negative days remaining always
    come with [ssl_valid] false. *)
Theorem X11_valid_certificate_has_days_left (w : TlsWorld) (u : string)
    (sslInfo : SslInfo.t) :
  fst (getSSLCertificateInfo w u) = Returns sslInfo ->
  (SslInfo.ssl_valid sslInfo = true ->
     SslInfo.ssl_expires sslInfo <> None
     /\ SslInfo.ssl_issued_date sslInfo <> None
     /\ exists days,
          SslInfo.ssl_days_remaining sslInfo = Some days /\ 0 <= days)
  /\ (forall days,
        SslInfo.ssl_days_remaining sslInfo = Some days -> days < 0 ->
        SslInfo.ssl_valid sslInfo = false).
Proof.
  intros H.
  apply getSSLCertificateInfo_Returns in H as [-> | (vf & vt & _ & ->)].
  - split; [discriminate|]. discriminate.
  - assert (Hpos : (vf <=? now w) && (now w <=? vt) = true ->
                   0 <= (vt - now w) / ms_per_day).
    { intros Hv. apply andb_true_iff in Hv as [_ Hv]. apply Z.leb_le in Hv.
      apply Z.div_pos; [lia | reflexivity]. }
    simpl. split.
    + intros Hv. repeat split; try discriminate. eauto.
    + intros days Hd Hneg. injection Hd as <-.
      destruct ((vf <=? now w) && (now w <=? vt)); [|reflexivity].
      specialize (Hpos eq_refl). lia.
Qed.

Lemma X11_valid_certificate_has_days_left_witness :
  exists days,
    SslInfo.ssl_days_remaining
      (cert_info (now (tls calm_site)) 1700000000000 1800000000000)
    = Some days /\ 0 <= days.
Proof.
  refine (proj2 (proj2 (proj1 (X11_valid_certificate_has_days_left
            (tls calm_site) "https://example.com" _ _) _))).
  - reflexivity.
  - reflexivity.
Defined.

(** X12. A website whose URL does not start with https never gets a
    valid SSL verdict, capture or no capture, and its result has none of
    the three certificate members. *)
Theorem X12_no_ssl_without_https (request : NextRequest)
    (world : nat -> SiteWorld) (k : nat) (w : Website.t)
    (r : ScreenshotResult) :
  batch_result request world k w r ->
  startsWith_https (Website.url w) = false ->
  ssl_valid r = false
  /\ ssl_expires r = None /\ ssl_issued_date r = None
  /\ ssl_days_remaining r = None.
Proof.
  intros Hr Hs.
  apply batch_result_site, POST_site_Returns in Hr
    as (sc & info & shot & _ & Hinfo & _ & ->).
  unfold getSSLCertificateInfo in Hinfo. rewrite Hs in Hinfo.
  simpl in Hinfo. injection Hinfo as <-.
  simpl. rewrite Hs, andb_false_r. auto.
Qed.

Lemma X12_no_ssl_without_https_witness :
  exists r,
    batch_result (mkRequest (Some (JsArray [plain_http])))
                 (fun _ => calm_site) 0 plain_http r
    /\ screenshot_path r <> None /\ ssl_valid r = false.
Proof.
  eexists. split; [apply batch_result_one; vm_compute; reflexivity|].
  split; [discriminate|].
  refine (proj1 (X12_no_ssl_without_https _ _ 0%nat plain_http _
            (batch_result_one calm_site plain_http _ eq_refl) _)).
  reflexivity.
Defined.

(** ** The page and the route together *)

Lemma fetch_api_answers (world : nat -> SiteWorld) (ws : list Website.t)
    (rs : list ScreenshotResult) :
  answers (page_request ws) world ws rs ->
  fetch_api world ws = Returns (mkApi 200 (map of_result rs)).
Proof.
  intros [_ H]. unfold fetch_api. rewrite H. reflexivity.
Qed.

(** X13. The page and the route agree on empty batches: with no website
    the handler of the button only sets an error text, whatever a
    request would have met, so it sends none; and the request it sends
    for a list that is not empty is never answered with status 400 by
    the route, only with 200 or 500. *)
Theorem X13_page_never_meets_the_400 (world : nat -> SiteWorld)
    (websites : list Website.t) :
  (websites = [] ->
   forall response,
     generateScreenshots websites response
     = ([setError "No websites to process. Add some URLs first."],
        Returns []))
  /\ (websites <> [] ->
      forall resp,
        fetch_api world websites = Returns resp ->
        (api_status resp = 200 /\ api_rows resp <> [])
        \/ (api_status resp = 500 /\ api_rows resp = [])).
Proof.
  split.
  - intros -> response. reflexivity.
  - intros Hne resp. destruct websites as [|w ws]; [congruence|].
    unfold fetch_api.
    destruct (POST_trace world (page_request (w :: ws)) w ws eq_refl)
      as [_ ->].
    destruct (fst (POST_loop world 0 (w :: ws) [])) as [rs| |] eqn:Hloop;
      try discriminate; intros H; injection H as <-; simpl; auto.
    left. split; trivial.
    apply POST_loop_Returns in Hloop as (new & -> & Hlen & _).
    destruct new; [discriminate | simpl; discriminate].
Qed.

(** X14. When the route answers the page's request with results, the
    page ends with one row per website, in the order of its websites and
    with their ids and urls, none of them still ['checking']; the
    success text counts the websites, the error text is empty and the
    loading flag is down. *)
Theorem X14_page_after_success (world : nat -> SiteWorld)
    (st : PageState.t) (rs : list ScreenshotResult) :
  answers (page_request (PageState.websites st)) world
          (PageState.websites st) rs ->
  exists st',
    after_generate st (fetch_api world (PageState.websites st)) = Returns st'
    /\ PageState.screenshots st' = map of_result rs
    /\ map ScreenshotStatus.id (PageState.screenshots st')
       = map Website.id (PageState.websites st)
    /\ map ScreenshotStatus.url (PageState.screenshots st')
       = map Website.url (PageState.websites st)
    /\ (forall row, In row (PageState.screenshots st') ->
                    ScreenshotStatus.status row <> checking)
    /\ PageState.success st'
       = String.append "Processed "
           (String.append
              (Number_toString
                 (Z.of_nat (List.length (PageState.websites st))))
              " websites successfully!")
    /\ PageState.error st' = ""
    /\ PageState.loading st' = false
    /\ PageState.websites st' = PageState.websites st
    /\ PageState.selectedScreenshot st' = PageState.selectedScreenshot st.
Proof.
  intros Hans.
  pose proof (fetch_api_answers _ _ _ Hans) as Hfetch.
  destruct (answers_loop _ _ _ _ Hans) as [Hne Hloop].
  destruct (POST_loop_ids _ _ _ _ _ Hloop) as [Hid Hurl]. simpl in Hid, Hurl.
  destruct (POST_loop_Returns _ _ _ _ _ Hloop) as (new & Hnew & Hlen & _).
  simpl in Hnew. subst new.
  unfold after_generate, generateScreenshots. rewrite Hfetch.
  destruct (PageState.websites st) as [|w ws] eqn:Hws; [congruence|].
  cbn [List.length Nat.eqb api_status api_rows Response_ok negb
       Z.leb Z.compare Pos.compare Pos.compare_cont andb].
  eexists. split; [reflexivity|]. cbn.
  rewrite !map_map. cbn.
  rewrite length_map, Hlen. simpl List.length.
  repeat split; auto.
  intros row Hin. apply in_map_iff in Hin as (r & <- & _). discriminate.
Qed.

Lemma X14_page_after_success_witness :
  exists st',
    after_generate
      (PageState.mk [example_com; github_com] [] false "" "" None)
      (fetch_api (fun _ => calm_site) [example_com; github_com])
    = Returns st'
    /\ PageState.success st' = "Processed 2 websites successfully!".
Proof.
  destruct (X14_page_after_success (fun _ => calm_site)
              (PageState.mk [example_com; github_com] [] false "" "" None)
              (match fst (POST (page_request [example_com; github_com])
                               (fun _ => calm_site)) with
               | Returns {| body := Results rs |} => rs
               | _ => []
               end))
    as (st' & Hst & _ & _ & _ & _ & Hsucc & _).
  - split; [reflexivity | vm_compute; reflexivity].
  - exists st'. split; [exact Hst | exact Hsucc].
Defined.

Lemma initialScreenshots_rows (websites : list Website.t)
    (row : ScreenshotStatus.t) :
  In row (initialScreenshots websites) ->
  ScreenshotStatus.status row = checking
  /\ ScreenshotStatus.screenshot_path row = None
  /\ ScreenshotStatus.ssl_valid row = false.
Proof.
  unfold initialScreenshots. intros H.
  apply in_map_iff in H as (w & <- & _). auto.
Qed.

(** X15. When the page's request fails, because the [fetch] rejects or
    because the answer is not ok (the route's status 500 for one), the
    page ends with the error text of the [catch] block and the loading
    flag down, and it keeps the placeholder rows set before the request:
    one row per website, every one still ['checking'], without
    screenshot. *)
Theorem X15_page_after_failure (st : PageState.t)
    (response : Outcome ApiResponse) :
  PageState.websites st <> [] ->
  response = Throws
  \/ (exists resp, response = Returns resp
                   /\ Response_ok (api_status resp) = false) ->
  exists st',
    after_generate st response = Returns st'
    /\ PageState.screenshots st'
       = initialScreenshots (PageState.websites st)
    /\ List.length (PageState.screenshots st')
       = List.length (PageState.websites st)
    /\ (forall row, In row (PageState.screenshots st') ->
                    ScreenshotStatus.status row = checking
                    /\ ScreenshotStatus.screenshot_path row = None)
    /\ PageState.error st'
       = "Failed to generate screenshots. Make sure the API is working."
    /\ PageState.success st' = ""
    /\ PageState.loading st' = false.
Proof.
  intros Hne Hfail. unfold after_generate, generateScreenshots.
  destruct (PageState.websites st) as [|w ws] eqn:Hws; [congruence|].
  cbn [List.length Nat.eqb].
  assert (Hrows : forall row,
             In row (initialScreenshots (w :: ws)) ->
             ScreenshotStatus.status row = checking
             /\ ScreenshotStatus.screenshot_path row = None).
  { intros row Hin. apply initialScreenshots_rows in Hin. tauto. }
  assert (Hlen : List.length (initialScreenshots (w :: ws))
                 = List.length (w :: ws))
    by (unfold initialScreenshots; apply length_map).
  destruct Hfail as [-> | (resp & -> & Hok)].
  - eexists. split; [reflexivity|]. cbn [apply_updates fold_left
      apply_update PageState.screenshots PageState.error PageState.success
      PageState.loading]. auto 10.
  - rewrite Hok. cbn [negb].
    eexists. split; [reflexivity|]. cbn [apply_updates fold_left
      apply_update PageState.screenshots PageState.error PageState.success
      PageState.loading]. auto 10.
Qed.

Lemma X15_page_after_failure_witness :
  exists st',
    after_generate
      (PageState.mk [example_com; github_com] [] false "" "" None)
      (fetch_api stuck_after_first [example_com; github_com])
    = Returns st'
    /\ PageState.screenshots st'
       = initialScreenshots [example_com; github_com].
Proof.
  destruct (X15_page_after_failure
              (PageState.mk [example_com; github_com] [] false "" "" None)
              (fetch_api stuck_after_first [example_com; github_com]))
    as (st' & Hst & Hrows & _).
  - discriminate.
  - right. eexists. split; [vm_compute; reflexivity | reflexivity].
  - exists st'. split; [exact Hst | exact Hrows].
Defined.

(** X16. Whenever the handler of the button awaits a [fetch] that
    settles, whatever it settles with, the page ends with the loading
    flag down and with exactly one of the error text and the success
    text set; its websites and its selected row are untouched. *)
Theorem X16_page_settles (st st' : PageState.t)
    (response : Outcome ApiResponse) :
  PageState.websites st <> [] ->
  after_generate st response = Returns st' ->
  PageState.loading st' = false
  /\ ((PageState.error st' = "" /\ PageState.success st' <> "")
      \/ (PageState.error st' <> "" /\ PageState.success st' = ""))
  /\ PageState.websites st' = PageState.websites st
  /\ PageState.selectedScreenshot st' = PageState.selectedScreenshot st.
Proof.
  intros Hne. unfold after_generate, generateScreenshots.
  destruct (PageState.websites st) as [|w ws] eqn:Hws; [congruence|].
  cbn [List.length Nat.eqb].
  destruct response as [resp| |]; try discriminate.
  - destruct (negb (Response_ok (api_status resp)));
      intros H; injection H as <-; cbn; rewrite Hws;
      repeat split; trivial; [right | left]; split; trivial; discriminate.
  - intros H; injection H as <-; cbn; rewrite Hws.
    repeat split; trivial. right. split; [discriminate | reflexivity].
Qed.

Lemma X16_page_settles_witness :
  exists st',
    after_generate (PageState.mk [example_com] [] false "" "" None) Throws
    = Returns st'
    /\ PageState.loading st' = false.
Proof.
  eexists. split; [reflexivity|].
  refine (proj1 (X16_page_settles
                   (PageState.mk [example_com] [] false "" "" None) _
                   Throws _ eq_refl)).
  discriminate.
Defined.

(** X17. The counters of the statistics panel: "Online" and "Offline"
    never count a row twice and together never exceed "Total"; on rows
    that came from the route they add up to "Total"; on the placeholder
    rows "Online", "Offline" and "SSL Valid" are all zero. *)
Theorem X17_statistics (rs : list ScreenshotResult)
    (websites : list Website.t) (rows : list ScreenshotStatus.t) :
  (stat_online rows + stat_offline rows <= stat_total rows)%nat
  /\ (stat_online (map of_result rs) + stat_offline (map of_result rs)
      = stat_total (map of_result rs))%nat
  /\ stat_total (initialScreenshots websites) = List.length websites
  /\ stat_online (initialScreenshots websites) = 0%nat
  /\ stat_offline (initialScreenshots websites) = 0%nat
  /\ stat_ssl_valid (initialScreenshots websites) = 0%nat.
Proof.
  unfold stat_online, stat_offline, stat_total, stat_ssl_valid,
    initialScreenshots.
  split; [|split; [|split; [|split; [|split]]]].
  - induction rows as [|row rows IH]; simpl; trivial.
    destruct (ScreenshotStatus.status row) as [[]|]; simpl; lia.
  - induction rs as [|r rs IH]; simpl; trivial.
    destruct (status r); simpl; lia.
  - apply length_map.
  - induction websites; simpl; trivial.
  - induction websites; simpl; trivial.
  - induction websites; simpl; trivial.
Qed.

Lemma Number_toString_head (n : Z) :
  exists c rest, Number_toString n = String c rest /\ c <> "E"%char.
Proof.
  unfold Number_toString, NilZero.string_of_int, NilZero.string_of_uint.
  destruct (Z.to_int n) as [d|d]; destruct d; simpl;
    eexists; eexists; (split; [reflexivity | discriminate]).
Qed.

Lemma days_left_text_Expired (days : Z) :
  days_left_text days = "Expired" <-> days <= 0.
Proof.
  unfold days_left_text. destruct (Z.gtb_spec days 0) as [Hgt | Hle].
  - split; [|lia]. intros H.
    destruct (Number_toString_head days) as (c & rest & Heq & Hc).
    rewrite Heq in H. simpl in H. injection H as H _. congruence.
  - split; [lia | reflexivity].
Qed.

(** X18. The "Days Left" line of a card: the text is "Expired" exactly
    when the days remaining are zero or negative, and then the line is
    red; the line is green exactly above 50 days, yellow exactly from 41
    to 50 days, red exactly up to 40 days. *)
Theorem X18_days_left_line (days : Z) :
  (days_left_text days = "Expired" <-> days <= 0)
  /\ (days <= 0 -> days_left_class days = "text-red-600")
  /\ (days_left_class days = "text-green-600" <-> 50 < days)
  /\ (days_left_class days = "text-yellow-500" <-> 40 < days <= 50)
  /\ (days_left_class days = "text-red-600" <-> days <= 40).
Proof.
  split; [apply days_left_text_Expired|].
  unfold days_left_class.
  destruct (Z.gtb_spec days 50), (Z.gtb_spec days 40);
    repeat split; intros; try lia; try discriminate; trivial.
Qed.

(** X19. The route and the page on the last day of a certificate: when
    the inspector reads a certificate, the card says "Expired" exactly
    when less than one whole day is left until the expiry; so for a
    certificate inside its validity window with less than a day left the
    card says "Expired", in red, next to the SSL text "Valid". *)
Theorem X19_expired_on_the_last_day (w : TlsWorld) (u : string)
    (validFrom validTo : Z) :
  reads_certificate w u validFrom validTo ->
  exists sslInfo days,
    fst (getSSLCertificateInfo w u) = Returns sslInfo
    /\ SslInfo.ssl_days_remaining sslInfo = Some days
    /\ (days_left_text days = "Expired" <-> validTo - now w < 86400000)
    /\ (validFrom <= now w <= validTo -> validTo - now w < 86400000 ->
        ssl_text (SslInfo.ssl_valid sslInfo) = "Valid"
        /\ days = 0
        /\ days_left_text days = "Expired"
        /\ days_left_class days = "text-red-600").
Proof.
  intros Hread. rewrite (getSSLCertificateInfo_reads _ _ _ _ Hread).
  exists (cert_info (now w) validFrom validTo),
         ((validTo - now w) / ms_per_day).
  change ms_per_day with 86400000. cbn [fst cert_info SslInfo.ssl_days_remaining
    SslInfo.ssl_valid].
  split; [reflexivity|]. split; [reflexivity|].
  pose proof (Z.mul_div_le (validTo - now w) 86400000) as Hlo.
  pose proof (Z.mul_succ_div_gt (validTo - now w) 86400000) as Hhi.
  split.
  - rewrite days_left_text_Expired. lia.
  - intros [Hfrom Hto] Hlast.
    assert (Hzero : (validTo - now w) / 86400000 = 0)
      by (apply Z.div_small; lia).
    rewrite Hzero.
    assert (Hv : (validFrom <=? now w) && (now w <=? validTo) = true).
    { apply andb_true_iff. split; apply Z.leb_le; assumption. }
    rewrite Hv. auto.
Qed.

Lemma X19_expired_on_the_last_day_witness :
  exists sslInfo days,
    fst (getSSLCertificateInfo
           (mkTls true (secureConnect (Some last_day_cert)) 1750000000000)
           "https://example.com") = Returns sslInfo
    /\ SslInfo.ssl_valid sslInfo = true
    /\ SslInfo.ssl_days_remaining sslInfo = Some days
    /\ days_left_text days = "Expired".
Proof.
  destruct (X19_expired_on_the_last_day
              (mkTls true (secureConnect (Some last_day_cert)) 1750000000000)
              "https://example.com" 1700000000000 1750000000200)
    as (sslInfo & days & Hret & Hdays & _ & Hlast).
  - repeat split.
  - exists sslInfo, days. split; [exact Hret|].
    destruct Hlast as (Hvalid & _ & Htext & _).
    + simpl. lia.
    + simpl. lia.
    + repeat split; trivial.
      destruct (SslInfo.ssl_valid sslInfo); [reflexivity | discriminate].
Defined.

(** X20. The status text of the modal has no case for ['checking'] and
    differs from the text of the card on that status only.  The modal
    opens on rows with a screenshot; neither a placeholder row nor a row
    read from the route is ['checking'] with a screenshot, so on every
    row the modal can show its text is the text of the card. *)
Theorem X20_modal_text_agrees_with_card (row : ScreenshotStatus.t) :
  (forall s, modal_status_text s = card_status_text s <-> s <> checking)
  /\ ((exists websites, In row (initialScreenshots websites))
      \/ (exists r, row = of_result r) ->
      truthy_opt (ScreenshotStatus.screenshot_path row) = true ->
      modal_status_text (ScreenshotStatus.status row)
      = card_status_text (ScreenshotStatus.status row)).
Proof.
  split.
  - intros [[]|]; simpl; split; try discriminate; trivial; congruence.
  - intros [(websites & Hin) | (r & ->)] Hpath.
    + apply initialScreenshots_rows in Hin as (_ & Hnone & _).
      rewrite Hnone in Hpath. discriminate.
    + simpl. destruct (status r); reflexivity.
Qed.
